(** * Infrastructure orchestrator CLI ([main.py]): configuration resolution,
    parameter derivation, tool probing and action dispatch.

    The Python program is embedded shallowly.  Values read from the YAML
    configuration are terms of [pyval]; Python mappings that are only looked
    up and updated by key ([env_vars], [extra_params], the parameter
    dictionary) are [gmap]s; YAML mappings, whose iteration order decides
    which resource writes a parameter last, are association lists.  Code that
    can raise returns a [result]; code that prints runs in the writer monad
    [IO], whose log is the sequence of printed lines.

    Strings are byte strings: case conversion and whitespace follow Python on
    the ASCII range.  The world is an oracle: a path exists or not, and a
    command has one outcome, for the whole run.  A command either cannot be
    launched, for a reason [run] does not catch ([spawn_error]), or has no
    executable on the search path, or runs to its end ([spawn]).  The
    process environment after [load_dotenv] is an oracle of its own
    ([getenv]): what the [dotenv] package makes of the file is not
    modelled, so a statement that holds for every [getenv] holds for the
    package's.

    Scope.  A document is made of [None], booleans, integers, strings,
    lists and mappings with string keys: YAML floats, timestamps and
    non-string mapping keys are outside the model.  A file that exists can
    be opened and read as text, and [config.yaml] is well-formed: the
    exceptions of [open] and of [yaml.safe_load] are outside the model, and
    so is a value [json.dumps] cannot print.  Every statement below about
    the readers, the resolver, the report and [main] is a statement about
    runs within this scope.  A [gmap] is printed in its own key order, where
    Python prints a mapping in insertion order; nothing proved here depends
    on it. *)

From Stdlib Require Import ZArith String Ascii List Bool Lia.
From stdpp Require Import base option list gmap strings fin_maps.

#[local] Set Warnings "-register-all".
Local Open Scope Z_scope.

(** ** Exceptions and results *)

Inductive exn : Type :=
| AttributeError
| IndexError
| FileNotFoundError
| CalledProcessError (code : Z) (out err : option string)
| PermissionError
| OSError
| ValueError.

Inductive result (A : Type) : Type :=
| Ok (a : A)
| Raise (e : exn).

Arguments Ok {A} a.
Arguments Raise {A} e.

Global Instance result_ret : MRet result := λ A a, Ok a.
Global Instance result_bind : MBind result := λ A B f m,
  match m with
  | Ok a => f a
  | Raise e => Raise e
  end.

(** ** Python values, as [yaml.safe_load] and [argparse] produce them *)

Inductive pyval : Type :=
| PNone
| PBool (b : bool)
| PInt (n : Z)
| PStr (s : string)
| PList (xs : list pyval)
| PDict (kvs : list (string * pyval)).

(** Truth value testing ([bool(v)]). *)
Definition truthy (v : pyval) : bool :=
  match v with
  | PNone => false
  | PBool b => b
  | PInt n => negb (n =? 0)
  | PStr s => negb (String.eqb s "")
  | PList xs => match xs with [] => false | _ => true end
  | PDict kvs => match kvs with [] => false | _ => true end
  end.

(** [a or b], with [b] evaluated only when [a] is falsy. *)
Definition py_or (a : pyval) (b : result pyval) : result pyval :=
  if truthy a then Ok a else b.

(** An [Optional[str]] seen as a value. *)
Definition of_opt_str (o : option string) : pyval :=
  match o with
  | Some s => PStr s
  | None => PNone
  end.

(** Lookup in a YAML mapping, in its stored order. *)
Fixpoint items_get (kvs : list (string * pyval)) (k : string) : option pyval :=
  match kvs with
  | [] => None
  | (k', v) :: rest => if String.eqb k' k then Some v else items_get rest k
  end.

(** [o.get(k, dflt)]: only a mapping has the method. *)
Definition py_get (o : pyval) (k : string) (dflt : pyval) : result pyval :=
  match o with
  | PDict kvs => Ok (default dflt (items_get kvs k))
  | _ => Raise AttributeError
  end.

(** [o.items()]. *)
Definition py_items (o : pyval) : result (list (string * pyval)) :=
  match o with
  | PDict kvs => Ok kvs
  | _ => Raise AttributeError
  end.

(** ** String methods *)

Definition is_upper (c : ascii) : bool :=
  let n := N_of_ascii c in (65 <=? n)%N && (n <=? 90)%N.

Definition is_lower (c : ascii) : bool :=
  let n := N_of_ascii c in (97 <=? n)%N && (n <=? 122)%N.

Definition char_lower (c : ascii) : ascii :=
  if is_upper c then ascii_of_N (N_of_ascii c + 32) else c.

Definition char_upper (c : ascii) : ascii :=
  if is_lower c then ascii_of_N (N_of_ascii c - 32) else c.

(** [s.lower()]. *)
Fixpoint str_lower (s : string) : string :=
  match s with
  | EmptyString => EmptyString
  | String c rest => String (char_lower c) (str_lower rest)
  end.

(** [s.capitalize()]: first character upper-cased, the others lower-cased. *)
Definition capitalize (s : string) : string :=
  match s with
  | EmptyString => EmptyString
  | String c rest => String (char_upper c) (str_lower rest)
  end.

(** [s.split(sep)] for a one-character separator: never the empty list. *)
Fixpoint split (sep : ascii) (s : string) : list string :=
  match s with
  | EmptyString => [EmptyString]
  | String c rest =>
      if Ascii.eqb c sep then EmptyString :: split sep rest
      else match split sep rest with
           | [] => [String c EmptyString]
           | w :: ws => String c w :: ws
           end
  end.

(** [s.split(sep, 1)] under the guard [sep in s]: the text before the first
    separator and the text after it; [None] when [sep] is not in [s]. *)
Fixpoint cut (sep : ascii) (s : string) : option (string * string) :=
  match s with
  | EmptyString => None
  | String c rest =>
      if Ascii.eqb c sep then Some (EmptyString, rest)
      else match cut sep rest with
           | Some (before, after) => Some (String c before, after)
           | None => None
           end
  end.

(** [''.join(ws)]. *)
Definition join (ws : list string) : string :=
  fold_right String.append EmptyString ws.

(** [str.isspace] on the ASCII range. *)
Definition is_space (c : ascii) : bool :=
  let n := N_of_ascii c in
  ((9 <=? n)%N && (n <=? 13)%N) || ((28 <=? n)%N && (n <=? 32)%N).

Fixpoint lstrip (s : string) : string :=
  match s with
  | EmptyString => EmptyString
  | String c rest => if is_space c then lstrip rest else s
  end.

Definition rstrip (s : string) : string :=
  String.rev (lstrip (String.rev s)).

(** [s.strip()]. *)
Definition strip (s : string) : string := rstrip (lstrip s).

(** [s.startswith(c)] for a one-character prefix. *)
Definition startswith (c : ascii) (s : string) : bool :=
  match s with
  | String c' _ => Ascii.eqb c' c
  | EmptyString => false
  end.

(** [s[0]] and [s[1:]]. *)
Definition str_index0 (s : string) : result ascii :=
  match s with
  | String c _ => Ok c
  | EmptyString => Raise IndexError
  end.

Definition str_tail (s : string) : string :=
  match s with
  | String _ rest => rest
  | EmptyString => EmptyString
  end.


(** [c in s]. *)
Fixpoint char_in (c : ascii) (s : string) : bool :=
  match s with
  | EmptyString => false
  | String a rest => Ascii.eqb a c || char_in c rest
  end.

(** [s.lstrip(chars)], [s.rstrip(chars)] and [s.strip(chars)], for the
    characters [p] holds of. *)
Fixpoint lstrip_by (p : ascii → bool) (s : string) : string :=
  match s with
  | EmptyString => EmptyString
  | String c rest => if p c then lstrip_by p rest else s
  end.

Definition rstrip_by (p : ascii → bool) (s : string) : string :=
  String.rev (lstrip_by p (String.rev s)).

Definition strip_by (p : ascii → bool) (s : string) : string :=
  rstrip_by p (lstrip_by p s).

(** Every character of [s] satisfies [p]. *)
Fixpoint all_chars (p : ascii → bool) (s : string) : bool :=
  match s with
  | EmptyString => true
  | String c rest => p c && all_chars p rest
  end.

(** The first and the last character of a string. *)
Definition first_char (s : string) : option ascii :=
  match s with
  | String c _ => Some c
  | EmptyString => None
  end.

Fixpoint last_char (s : string) : option ascii :=
  match s with
  | EmptyString => None
  | String c EmptyString => Some c
  | String _ rest => last_char rest
  end.

(** [p] fails on the character, if there is one. *)
Definition fails_on (p : ascii → bool) (o : option ascii) : Prop :=
  match o with
  | Some c => p c = false
  | None => True
  end.

(** ** Printed output and the [IO] monad *)

(** One [print] call: a literal, an f-string (its text with [{}] for each
    hole, and the interpolated values), or a [json.dumps] of the parameters. *)
Inductive out : Type :=
| Text (s : string)
| Fmt (template : string) (holes : list pyval)
| Dumps (params : gmap string pyval).

Record IO (A : Type) : Type := mkIO { io_log : list out; io_res : result A }.

Arguments mkIO {A} io_log io_res.
Arguments io_log {A} i.
Arguments io_res {A} i.

Global Instance IO_ret : MRet IO := λ A a, mkIO [] (Ok a).
Global Instance IO_bind : MBind IO := λ A B f m,
  match io_res m with
  | Ok a => let r := f a in mkIO (io_log m ++ io_log r) (io_res r)
  | Raise e => mkIO (io_log m) (Raise e)
  end.

Definition print (o : out) : IO unit := mkIO [o] (Ok tt).

Definition lift {A} (r : result A) : IO A := mkIO [] r.

(** [for x in xs: s = body(s, x)], in either monad. *)
Fixpoint for_result {A S} (xs : list A) (body : S → A → result S) (s : S)
  : result S :=
  match xs with
  | [] => Ok s
  | x :: rest => s' ← body s x; for_result rest body s'
  end.

Fixpoint for_io {A S} (xs : list A) (body : S → A → IO S) (s : S) : IO S :=
  match xs with
  | [] => mret s
  | x :: rest => s' ← body s x; for_io rest body s'
  end.

Definition nl : string := String "010" EmptyString.

(** ["=" * 60]. *)
Definition rule : string := string_of_list_ascii (repeat "="%char 60).

(** ** The world outside the process *)

Record CompletedProcess : Type := {
  returncode : Z;
  stdout : option string;
  stderr : option string;
}.

(** Why [subprocess.run] raises, the missing executable and the status that
    [check] refuses apart: the file cannot be executed, an argument cannot be
    passed or the output cannot be decoded, or the system refuses for
    another reason. *)
Inductive launch_failure : Type :=
| NotExecutable
| BadArgument
| OtherFailure.

Definition launch_exn (f : launch_failure) : exn :=
  match f with
  | NotExecutable => PermissionError
  | BadArgument => ValueError
  | OtherFailure => OSError
  end.

Record World : Type := {
  (** whether [import dotenv] and [import yaml] succeeded *)
  HAS_DOTENV : bool;
  HAS_YAML : bool;
  (** [Path(p).exists()] *)
  path_exists : string → bool;
  (** the lines [open(p)] iterates over *)
  read_lines : string → list string;
  (** [os.getenv(k)] once [load_dotenv] has run *)
  getenv : string → option string;
  (** [yaml.safe_load] of the file at a path *)
  yaml_safe_load : string → pyval;
  (** the child process of an argument vector: [None] when the executable is
      not on the search path, else its exit status, stdout and stderr *)
  spawn : list string → option (Z * string * string);
  (** the failure of [subprocess.run] on an argument vector, when it raises
      something that [run] does not catch *)
  spawn_error : list string → option launch_failure;
  (** [Path("infra").glob("*.bicep")] *)
  glob_bicep : list string;
}.

(** ** [OrchestratorConfig] *)

Record OrchestratorConfig : Type := {
  subscription_id : pyval;
  location : pyval;
  env_name : pyval;
  profile : pyval;
  resources : pyval;
  dry_run : pyval;
  what_if : pyval;
  apply : bool;
  destroy : bool;
  extra_params : gmap string string;
}.

Definition default_resources : pyval :=
  PDict [ ("container_registry", PDict [("enabled", PBool true)]);
          ("storage_account", PDict [("enabled", PBool true)]);
          ("ai_services", PDict [("enabled", PBool true)]);
          ("search_service", PDict [("enabled", PBool true)]) ].

(** [__post_init__]. *)
Definition post_init (self : OrchestratorConfig) : OrchestratorConfig :=
  if negb (truthy (resources self)) then
    {| subscription_id := subscription_id self; location := location self;
       env_name := env_name self; profile := profile self;
       resources := default_resources;
       dry_run := dry_run self; what_if := what_if self;
       apply := apply self; destroy := destroy self;
       extra_params := extra_params self |}
  else self.

(** The parsed command line ([argparse.Namespace]); a string option that was
    not given is [None], as is [--set] when it never occurred. *)
Module args.
Record Namespace : Type := {
  dry_run : bool;
  what_if : bool;
  apply : bool;
  destroy : bool;
  resources : bool;
  profile : option string;
  env : option string;
  location : option string;
  subscription : option string;
  set : option (list string);
}.
End args.

(** ** Source readers *)

(** One line of the environment file: [source k v] is the value stored for
    key [k] whose text in the file is [v]. *)
Definition env_line (source : string → string → string)
    (env_vars : gmap string string) (line : string) : gmap string string :=
  let line := strip line in
  if negb (String.eqb line "") && negb (startswith "#" line) then
    match cut "=" line with
    | Some (key, value) =>
        <[strip key := source (strip key) (strip value)]> env_vars
    | None => env_vars
    end
  else env_vars.

Definition load_env_file (w : World) (env_path : string) : gmap string string :=
  if HAS_DOTENV w && path_exists w env_path then
    fold_left (env_line (λ k v, default v (getenv w k))) (read_lines w env_path) ∅
  else if path_exists w env_path then
    fold_left (env_line (λ _ v, v)) (read_lines w env_path) ∅
  else ∅.

Definition load_yaml_config (w : World) (config_path : string) : IO pyval :=
  if HAS_YAML w && path_exists w config_path then
    let doc := yaml_safe_load w config_path in
    mret (if truthy doc then doc else PDict [])
  else if path_exists w config_path then
    _ ← print (Fmt "Warning: YAML library not available, skipping {}"
                   [PStr config_path]);
    mret (PDict [])
  else mret (PDict []).

(** ** [resolve_config] *)

(** [for param in args.set: if '=' in param: ...]. *)
Definition set_param (extra : gmap string string) (param : string)
  : gmap string string :=
  match cut "=" param with
  | Some (key, value) => <[key := value]> extra
  | None => extra
  end.

(** [env_vars.get(k)]. *)
Definition env_get (env_vars : gmap string string) (k : string) : pyval :=
  of_opt_str (env_vars !! k).

(** The body of [resolve_config] once both files are loaded. *)
Definition merge (a : args.Namespace) (env_vars : gmap string string)
    (yaml_config : pyval) : result OrchestratorConfig :=
  azure_config ← py_get yaml_config "azure" (PDict []);
  env_config ← py_get yaml_config "environment" (PDict []);
  resources_config ← py_get yaml_config "resources" (PDict []);
  deployment_config ← py_get yaml_config "deployment" (PDict []);
  v_subscription_id ←
    py_or (of_opt_str (args.subscription a))
      (py_or (env_get env_vars "AZURE_SUBSCRIPTION_ID")
         (py_get azure_config "subscription_id" PNone));
  v_location ←
    py_or (of_opt_str (args.location a))
      (py_or (env_get env_vars "AZURE_LOCATION")
         (py_get azure_config "location" (PStr "eastus")));
  v_env_name ←
    py_or (of_opt_str (args.env a))
      (py_or (env_get env_vars "AZURE_ENV_NAME")
         (py_get env_config "name" (PStr "dev")));
  v_profile ←
    py_or (of_opt_str (args.profile a))
      (py_or (env_get env_vars "PROFILE")
         (py_get env_config "profile" (PStr "default")));
  let v_resources :=
    if args.resources a then resources_config else resources_config in
  v_dry_run ←
    py_or (PBool (args.dry_run a)) (py_get deployment_config "dry_run" (PBool false));
  v_what_if ←
    py_or (PBool (args.what_if a)) (py_get deployment_config "what_if" (PBool false));
  let config := post_init
    {| subscription_id := v_subscription_id; location := v_location;
       env_name := v_env_name; profile := v_profile;
       resources := v_resources;
       dry_run := v_dry_run; what_if := v_what_if;
       apply := args.apply a; destroy := args.destroy a;
       extra_params := ∅ |} in
  mret
    {| subscription_id := subscription_id config; location := location config;
       env_name := env_name config; profile := profile config;
       resources := resources config;
       dry_run := dry_run config; what_if := what_if config;
       apply := apply config; destroy := destroy config;
       extra_params :=
         match args.set a with
         | Some (p :: ps) => fold_left set_param (p :: ps) (extra_params config)
         | _ => extra_params config
         end |}.

(** The environment file read: [.env], or the example file without it. *)
Definition env_path (w : World) : string :=
  if path_exists w ".env" then ".env" else ".env.example".

Definition resolve_config (w : World) (a : args.Namespace) : IO OrchestratorConfig :=
  let env_vars := load_env_file w (env_path w) in
  yaml_config ← load_yaml_config w "config.yaml";
  lift (merge a env_vars yaml_config).

(** ** Tool inspector *)

(** [xs[0]]. *)
Definition index0 {A} (xs : list A) : result A :=
  match xs with
  | x :: _ => Ok x
  | [] => Raise IndexError
  end.

(** [subprocess.run(command, capture_output=capture, text=True, check=check)]. *)
Definition subprocess_run (w : World) (command : list string)
    (capture check : bool) : result CompletedProcess :=
  match spawn_error w command with
  | Some f => Raise (launch_exn f)
  | None =>
      match spawn w command with
      | None => Raise FileNotFoundError
      | Some (code, o, e) =>
          let o := if capture then Some o else None in
          let e := if capture then Some e else None in
          if check && negb (code =? 0) then Raise (CalledProcessError code o e)
          else Ok {| returncode := code; stdout := o; stderr := e |}
      end
  end.

Definition run (w : World) (command : list string) (capture check : bool)
  : result CompletedProcess :=
  match subprocess_run w command capture check with
  | Ok r => Ok r
  | Raise FileNotFoundError =>
      c ← index0 command;
      Ok {| returncode := 127; stdout := Some "";
            stderr := Some ("Command not found: " +:+ c) |}
  | Raise (CalledProcessError code o e) =>
      if negb check then Ok {| returncode := code; stdout := o; stderr := e |}
      else Raise (CalledProcessError code o e)
  | Raise e => Raise e
  end.

(** The version check of a tool: [bicep] is asked through [az]. *)
Definition version_command (tool : string) : list string :=
  if String.eqb tool "bicep" then ["az"; "bicep"; "version"]
  else [tool; "--version"].

Definition require_tools (w : World) (tools : option (list string))
  : result (gmap string bool) :=
  let tools := default ["az"; "azd"; "bicep"] tools in
  for_result tools
    (λ results tool,
       if String.eqb tool "bicep" then
         r ← run w ["az"; "bicep"; "version"] true false;
         mret (<[tool := returncode r =? 0]> results)
       else
         r ← run w [tool; "--version"] true false;
         mret (<[tool := returncode r =? 0]> results))
    ∅.

Definition get_tool_version (w : World) (tool : string) : option string :=
  let attempt : result (option string) :=
    r ← (if String.eqb tool "bicep" then run w ["az"; "bicep"; "version"] true false
         else run w [tool; "--version"] true false);
    if returncode r =? 0 then
      match stdout r with
      | Some s =>
          let output := strip s in
          if negb (String.eqb output "") then
            line ← index0 (split "010" output); mret (Some line)
          else mret None
      | None => Raise AttributeError
      end
    else mret None in
  match attempt with
  | Ok v => v
  | Raise _ => None
  end.

(** ** [azd] environments *)

(** [cmd.extend(['-e', env_name])] under [if env_name]. *)
Definition with_env_name (cmd : list string) (env_name : option string)
  : list string :=
  match env_name with
  | Some e => if truthy (PStr e) then cmd ++ ["-e"; e] else cmd
  | None => cmd
  end.

Definition azd_env_set (w : World) (key value : string)
    (env_name : option string) : result bool :=
  let cmd := with_env_name ["azd"; "env"; "set"; key; value] env_name in
  r ← run w cmd true false;
  mret (returncode r =? 0).

(** The loop body of [azd_env_get_values] for one line of the output. *)
Definition azd_value_line (env_vars : gmap string string) (line : string)
  : gmap string string :=
  let line := strip line in
  if negb (String.eqb line "") then
    match cut "=" line with
    | Some (key, value) =>
        let value :=
          strip_by (λ c, Ascii.eqb c "039")
            (strip_by (λ c, Ascii.eqb c "034") value) in
        <[key := value]> env_vars
    | None => env_vars
    end
  else env_vars.

Definition azd_env_get_values (w : World) (env_name : option string)
  : result (gmap string string) :=
  let cmd := with_env_name ["azd"; "env"; "get-values"] env_name in
  r ← run w cmd true false;
  if returncode r =? 0 then
    match stdout r with
    | Some out => mret (fold_left azd_value_line (split "010" out) ∅)
    | None => Raise AttributeError
    end
  else mret ∅.

(** ** Infrastructure files *)

Definition bicep_validate (w : World) (bicep_file : string) : IO bool :=
  if negb (path_exists w bicep_file) then
    _ ← print (Fmt "Error: Bicep file not found: {}" [PStr bicep_file]);
    mret false
  else
    r ← lift (run w ["az"; "bicep"; "build"; "--file"; bicep_file; "--stdout"]
                  true false);
    if returncode r =? 0 then
      _ ← print (Fmt "✓ Bicep file is valid: {}" [PStr bicep_file]);
      mret true
    else
      _ ← print (Fmt "✗ Bicep validation failed: {}" [PStr bicep_file]);
      _ ← (if truthy (of_opt_str (stderr r))
           then print (Fmt "Error: {}" [of_opt_str (stderr r)])
           else mret tt);
      mret false.

Definition validate_bicep_files (w : World) : IO bool :=
  _ ← print (Text (nl +:+ rule));
  _ ← print (Text "BICEP VALIDATION");
  _ ← print (Text (rule +:+ nl));
  if negb (path_exists w "infra") then
    _ ← print (Text "Warning: infra directory not found");
    mret false
  else
    let bicep_files := glob_bicep w in
    match bicep_files with
    | [] =>
        _ ← print (Text "Warning: No Bicep files found in infra directory");
        mret false
    | _ =>
        all_valid ← for_io bicep_files
          (λ all_valid bicep_file,
             ok ← bicep_validate w bicep_file;
             mret (if negb ok then false else all_valid))
          true;
        _ ← print (Text (nl +:+ rule +:+ nl));
        mret all_valid
    end.

Definition check_tools (w : World) : IO bool :=
  _ ← print (Text (nl +:+ rule));
  _ ← print (Text "TOOL VALIDATION");
  _ ← print (Text (rule +:+ nl));
  let tools := ["az"; "azd"; "bicep"; "docker"; "git"] in
  results ← lift (require_tools w (Some tools));
  let required_tools := ["az"; "azd"; "bicep"] in
  all_required_available ← for_io tools
    (λ all_required_available tool,
       let is_required := bool_decide (tool ∈ required_tools) in
       let available := default false (results !! tool) in
       let status := if available then "✓" else "✗" in
       let req_marker := if is_required then "[REQUIRED]" else "[OPTIONAL]" in
       let version :=
         if available then
           match get_tool_version w tool with
           | Some version_str =>
               if negb (String.eqb version_str "") then " - " +:+ version_str
               else ""
           | None => ""
           end
         else "" in
       _ ← print (Fmt "{} {:15s} {:12s} {}"
                      [PStr status; PStr tool; PStr req_marker; PStr version]);
       mret (if is_required && negb available then false
             else all_required_available))
    true;
  _ ← print (Text (nl +:+ rule +:+ nl));
  if negb all_required_available then
    _ ← print (Text "Warning: Some required tools are not available!");
    mret false
  else mret true.

(** ** Parameter builder *)

(** The loop body of [build_infra_params] for one entry of [resources]. *)
Definition resource_param (params : gmap string pyval)
    (item : string * pyval) : result (gmap string pyval) :=
  let '(resource_name, resource_config) := item in
  match resource_config with
  | PDict rc =>
      enabled ← py_get resource_config "enabled" (PBool true);
      if truthy enabled then
        let param_name := join (map capitalize (split "_" resource_name)) in
        c ← str_index0 param_name;
        let param_name := String (char_lower c) (str_tail param_name) in
        match items_get rc "sku" with
        | Some sku => mret (<[param_name +:+ "Sku" := sku]> params)
        | None => mret params
        end
      else mret params
  | _ => mret params
  end.

Definition build_infra_params (config : OrchestratorConfig)
  : result (gmap string pyval) :=
  let params : gmap string pyval :=
    <["environmentName" := env_name config]> (<["location" := location config]> ∅) in
  let params :=
    if truthy (subscription_id config)
    then <["subscriptionId" := subscription_id config]> params
    else params in
  items ← py_items (resources config);
  params ← for_result items resource_param params;
  mret ((PStr <$> extra_params config) ∪ params).

(** ** Reporting *)

Definition print_config (config : OrchestratorConfig) : IO unit :=
  _ ← print (Text (nl +:+ rule));
  _ ← print (Text "RESOLVED CONFIGURATION");
  _ ← print (Text rule);
  _ ← print (Text (nl +:+ "Azure Settings:"));
  _ ← print (Fmt "  Subscription ID: {}"
              [if truthy (subscription_id config) then subscription_id config
               else PStr "(not set)"]);
  _ ← print (Fmt "  Location:        {}" [location config]);
  _ ← print (Text (nl +:+ "Environment Settings:"));
  _ ← print (Fmt "  Environment:     {}" [env_name config]);
  _ ← print (Fmt "  Profile:         {}" [profile config]);
  _ ← print (Text (nl +:+ "Deployment Settings:"));
  _ ← print (Fmt "  Dry Run:         {}" [dry_run config]);
  _ ← print (Fmt "  What-If:         {}" [what_if config]);
  _ ← print (Fmt "  Apply:           {}" [PBool (apply config)]);
  _ ← print (Fmt "  Destroy:         {}" [PBool (destroy config)]);
  _ ← print (Text (nl +:+ "Resources:"));
  items ← lift (py_items (resources config));
  _ ← for_io items
    (λ _ '(name, res_config),
       match res_config with
       | PDict _ =>
           enabled ← lift (py_get res_config "enabled" (PBool true));
           print (Fmt "  {:20s} {}"
                    [PStr name;
                     PStr (if truthy enabled then "enabled" else "disabled")])
       | _ => mret tt
       end)
    tt;
  _ ← (if bool_decide (extra_params config ≠ ∅) then
         _ ← print (Text (nl +:+ "Extra Parameters:"));
         for_io (map_to_list (extra_params config))
           (λ _ '(key, value), print (Fmt "  {}: {}" [PStr key; PStr value]))
           tt
       else mret tt);
  _ ← print (Text (nl +:+ "Infrastructure Parameters:"));
  params ← lift (build_infra_params config);
  _ ← print (Dumps params);
  print (Text (rule +:+ nl)).

(** ** [main], from the parsed command line on *)

Definition main (w : World) (a : args.Namespace) : IO Z :=
  config ← resolve_config w a;
  _ ← print_config config;
  if truthy (dry_run config) then
    _ ← print (Text ("Running in DRY-RUN mode - no changes will be made" +:+ nl));
    _ ← check_tools w;
    _ ← validate_bicep_files w;
    mret 0
  else if truthy (what_if config) then
    _ ← print (Text ("Running in WHAT-IF mode - previewing changes" +:+ nl));
    _ ← check_tools w;
    _ ← validate_bicep_files w;
    _ ← print (Text "Note: Actual what-if analysis requires Azure provisioning (not yet implemented)");
    mret 0
  else if apply config then
    _ ← print (Text "APPLY mode requested");
    _ ← print (Text "Note: Actual provisioning not yet implemented (configuration and validation only)");
    mret 0
  else if destroy config then
    _ ← print (Text "DESTROY mode requested");
    _ ← print (Text "Note: Actual resource destruction not yet implemented (configuration and validation only)");
    mret 0
  else mret 0.

(** [sys.exit(main())]: the status the process ends with; an exception that
    reaches the top level ends it with status 1. *)
Definition exit_status (w : World) (a : args.Namespace) : Z :=
  match io_res (main w a) with
  | Ok status => status
  | Raise _ => 1
  end.

(** * Verification *)

(** ** Fixtures: worlds and command lines used by the examples below *)

(** A command line with no flag and no option. *)
Definition no_args : args.Namespace :=
  {| args.dry_run := false; args.what_if := false; args.apply := false;
     args.destroy := false; args.resources := false; args.profile := None;
     args.env := None; args.location := None; args.subscription := None;
     args.set := None |}.

(** A machine with the YAML parser, no file and no tool. *)
Definition bare_world : World :=
  {| HAS_DOTENV := false; HAS_YAML := true;
     path_exists := λ _, false; read_lines := λ _, [];
     getenv := λ _, None; yaml_safe_load := λ _, PNone;
     spawn := λ _, None; spawn_error := λ _, None; glob_bicep := [] |}.

(** [w] with a [config.yaml] that parses to [doc]. *)
Definition with_yaml (doc : pyval) (w : World) : World :=
  {| HAS_DOTENV := HAS_DOTENV w; HAS_YAML := HAS_YAML w;
     path_exists := λ p, String.eqb p "config.yaml" || path_exists w p;
     read_lines := read_lines w; getenv := getenv w;
     yaml_safe_load := λ p, if String.eqb p "config.yaml" then doc
                            else yaml_safe_load w p;
     spawn := spawn w; spawn_error := spawn_error w;
     glob_bicep := glob_bicep w |}.

(** [w] with a [.env] file of the given lines. *)
Definition with_env (lines : list string) (w : World) : World :=
  {| HAS_DOTENV := HAS_DOTENV w; HAS_YAML := HAS_YAML w;
     path_exists := λ p, String.eqb p ".env" || path_exists w p;
     read_lines := λ p, if String.eqb p ".env" then lines else read_lines w p;
     getenv := getenv w; yaml_safe_load := yaml_safe_load w;
     spawn := spawn w; spawn_error := spawn_error w;
     glob_bicep := glob_bicep w |}.

(** [w] where running [command] ends with [outcome]. *)
Definition with_tool (command : list string) (outcome : Z * string * string)
    (w : World) : World :=
  {| HAS_DOTENV := HAS_DOTENV w; HAS_YAML := HAS_YAML w;
     path_exists := path_exists w; read_lines := read_lines w;
     getenv := getenv w; yaml_safe_load := yaml_safe_load w;
     spawn := λ c, if bool_decide (c = command) then Some outcome else spawn w c;
     spawn_error := λ c, if bool_decide (c = command) then None
                         else spawn_error w c;
     glob_bicep := glob_bicep w |}.


(** ** What the resolver reads *)

(** The environment mapping and the structured file of a world. *)
Definition env_mapping (w : World) : gmap string string :=
  load_env_file w (env_path w).

Definition yaml_doc (w : World) : pyval :=
  if HAS_YAML w && path_exists w "config.yaml" then
    if truthy (yaml_safe_load w "config.yaml") then yaml_safe_load w "config.yaml"
    else PDict []
  else PDict [].

(** A top-level entry of the structured file, and a value nested in one of
    its sections ([azure.location] is [file_value doc "azure" "location"]). *)
Definition top_value (doc : pyval) (k : string) : option pyval :=
  match doc with
  | PDict top => items_get top k
  | _ => None
  end.

Definition file_value (doc : pyval) (section k : string) : option pyval :=
  match top_value doc section with
  | Some (PDict sec) => items_get sec k
  | _ => None
  end.

(** The structured file is a mapping whose [azure], [environment] and
    [deployment] sections, where present, are mappings. *)
Definition section_ok (doc : pyval) (section : string) : bool :=
  match top_value doc section with
  | None | Some (PDict _) => true
  | Some _ => false
  end.

Definition sections_ok (doc : pyval) : bool :=
  match doc with
  | PDict _ =>
      section_ok doc "azure" && section_ok doc "environment"
      && section_ok doc "deployment"
  | _ => false
  end.

(** A string that was given and is not empty. *)
Definition non_empty (o : option string) : option string :=
  match o with
  | Some s => if String.eqb s "" then None else Some s
  | None => None
  end.

(** The value of a scalar field, from its own three sources and default. *)
Definition resolved_scalar (cli envv : option string) (file : option pyval)
    (dflt : pyval) : pyval :=
  match non_empty cli with
  | Some s => PStr s
  | None =>
      match non_empty envv with
      | Some s => PStr s
      | None => default dflt file
      end
  end.

(** The reading under which every source, the file included, is skipped
    when empty: the first non-empty candidate in priority order. *)
Definition first_non_empty (cli envv : option string) (file : option pyval)
    (dflt : pyval) : pyval :=
  default PNone
    (List.find truthy [of_opt_str cli; of_opt_str envv; default PNone file; dflt]).

(** The value of an action flag that the file can also request. *)
Definition resolved_flag (cli : bool) (file : option pyval) : pyval :=
  if cli then PBool true else default (PBool false) file.

(** A field nobody supplies. *)
Definition unsupplied (cli envv : option string) (file : option pyval) : Prop :=
  cli = None ∧ envv = None ∧ file = None.

(** The same command line with [--resources] set or cleared. *)
Definition with_resources_flag (b : bool) (a : args.Namespace) : args.Namespace :=
  {| args.dry_run := args.dry_run a; args.what_if := args.what_if a;
     args.apply := args.apply a; args.destroy := args.destroy a;
     args.resources := b; args.profile := args.profile a;
     args.env := args.env a; args.location := args.location a;
     args.subscription := args.subscription a; args.set := args.set a |}.

(** ** The builder: names and writes *)

(** [''.join(word.capitalize() for word in name.split('_'))], first
    character lower-cased: [None] where [param_name[0]] has nothing to read. *)
Definition camel (resource_name : string) : option string :=
  match join (map capitalize (split "_" resource_name)) with
  | EmptyString => None
  | String c rest => Some (String (char_lower c) rest)
  end.

(** The entry is a mapping whose [enabled] is true or absent. *)
Definition enabled_mapping (resource_config : pyval) : bool :=
  match resource_config with
  | PDict rc => truthy (default (PBool true) (items_get rc "enabled"))
  | _ => false
  end.

(** The [sku] of an entry that is an enabled mapping with that key. *)
Definition sku_of (resource_config : pyval) : option pyval :=
  if enabled_mapping resource_config then top_value resource_config "sku" else None.

(** ** The dispatcher: actions and their paths *)

Inductive action : Type := DryRun | WhatIf | Apply | Destroy | ReportOnly.

(** The flags in priority order; the first one set selects the action. *)
Definition requested (config : OrchestratorConfig) : list (bool * action) :=
  [ (truthy (dry_run config), DryRun); (truthy (what_if config), WhatIf);
    (apply config, Apply); (destroy config, Destroy) ].

Definition selected (config : OrchestratorConfig) : action :=
  match List.find fst (requested config) with
  | Some (_, act) => act
  | None => ReportOnly
  end.

(** What each path of [main] does after the configuration is printed. *)
Definition path (w : World) (act : action) : IO Z :=
  match act with
  | DryRun =>
      _ ← print (Text ("Running in DRY-RUN mode - no changes will be made" +:+ nl));
      _ ← check_tools w;
      _ ← validate_bicep_files w;
      mret 0
  | WhatIf =>
      _ ← print (Text ("Running in WHAT-IF mode - previewing changes" +:+ nl));
      _ ← check_tools w;
      _ ← validate_bicep_files w;
      _ ← print (Text "Note: Actual what-if analysis requires Azure provisioning (not yet implemented)");
      mret 0
  | Apply =>
      _ ← print (Text "APPLY mode requested");
      _ ← print (Text "Note: Actual provisioning not yet implemented (configuration and validation only)");
      mret 0
  | Destroy =>
      _ ← print (Text "DESTROY mode requested");
      _ ← print (Text "Note: Actual resource destruction not yet implemented (configuration and validation only)");
      mret 0
  | ReportOnly => mret 0
  end.

(** ** The inspector: what a probe observes *)

(** The text before the first newline. *)
Definition first_line (s : string) : string :=
  match cut "010" s with
  | Some (before, _) => before
  | None => s
  end.

(** Every command can be launched, or has no executable on the search path:
    [subprocess.run] raises nothing that [run] does not catch. *)
Definition launches (w : World) : Prop := ∀ command, spawn_error w command = None.

(** The version check of [tool] ran and ended with status 0. *)
Definition available (w : World) (tool : string) : bool :=
  match spawn w (version_command tool) with
  | Some (code, _, _) => code =? 0
  | None => false
  end.

(** The structured file gives [azure.location] as the empty string. *)
Definition empty_location_world : World :=
  with_yaml (PDict [("azure", PDict [("location", PStr "")])]) bare_world.

(** The three sources each name a region, as do the command line's. *)
Definition layered_world : World :=
  with_env ["AZURE_LOCATION=centralus" +:+ nl; "# comment" +:+ nl;
            "AZURE_ENV_NAME = staging" +:+ nl]
    (with_yaml (PDict [("azure", PDict [("location", PStr "northeurope")]);
                       ("deployment", PDict [("dry_run", PBool true)])])
       bare_world).

Definition westus2_args : args.Namespace :=
  {| args.dry_run := false; args.what_if := false; args.apply := true;
     args.destroy := false; args.resources := false; args.profile := None;
     args.env := None; args.location := Some "westus2";
     args.subscription := None; args.set := None |}.

(** The structured file has a [resources] block with no entry. *)
Definition empty_resources_world : World :=
  with_yaml (PDict [("resources", PDict [])]) bare_world.

(** The structured file lists one resource with a SKU. *)
Definition sales_catalog : pyval :=
  PDict [("sales_catalog",
          PDict [("enabled", PBool true); ("sku", PStr "Standard_S1")])].

Definition sales_catalog_world : World :=
  with_yaml (PDict [("resources", sales_catalog)]) bare_world.


(** The structured file lists a resource named by a lone underscore, with
    no SKU. *)
Definition underscore_resources : pyval :=
  PDict [("_", PDict [("enabled", PBool true)])].

Definition underscore_world : World :=
  with_yaml (PDict [("resources", underscore_resources)]) bare_world.

(** The structured file has an [azure:] header with nothing under it. *)
Definition null_section_world : World :=
  with_yaml (PDict [("azure", PNone)]) bare_world.

(** A configuration whose extra parameters name [location] too. *)
Definition override_config : OrchestratorConfig :=
  {| subscription_id := PNone; location := PStr "eastus";
     env_name := PStr "dev"; profile := PStr "default";
     resources := sales_catalog;
     dry_run := PBool false; what_if := PBool false;
     apply := false; destroy := false;
     extra_params := {[ "location" := "override-region" ]} |}.

(** A tool whose version check prints a blank line before the version. *)
Definition blank_line_world : World :=
  with_tool ["foo"; "--version"] (0, nl +:+ "v2" +:+ nl, "") bare_world.

(** Every flag at once. *)
Definition all_flags : args.Namespace :=
  {| args.dry_run := true; args.what_if := true; args.apply := true;
     args.destroy := true; args.resources := false; args.profile := None;
     args.env := None; args.location := None; args.subscription := None;
     args.set := None |}.

(** What the resolver makes of [all_flags] on a machine with no file. *)
Definition all_flags_config : OrchestratorConfig :=
  {| subscription_id := PNone; location := PStr "eastus";
     env_name := PStr "dev"; profile := PStr "default";
     resources := default_resources;
     dry_run := PBool true; what_if := PBool true;
     apply := true; destroy := true;
     extra_params := ∅ |}.

(** The call returned. *)
Definition is_ok {A} (r : result A) : bool :=
  match r with
  | Ok _ => true
  | Raise _ => false
  end.

(** What the resolver makes of [underscore_world] with no argument. *)
Definition underscore_config : OrchestratorConfig :=
  {| subscription_id := PNone; location := PStr "eastus";
     env_name := PStr "dev"; profile := PStr "default";
     resources := underscore_resources;
     dry_run := PBool false; what_if := PBool false;
     apply := false; destroy := false;
     extra_params := ∅ |}.

(** The characters of a resource name are all underscores. *)
Fixpoint only_underscores (s : string) : bool :=
  match s with
  | EmptyString => true
  | String c rest => Ascii.eqb c "_" && only_underscores rest
  end.

(** The first thing each path prints. *)
Definition banner (act : action) : option out :=
  match act with
  | DryRun => Some (Text ("Running in DRY-RUN mode - no changes will be made" +:+ nl))
  | WhatIf => Some (Text ("Running in WHAT-IF mode - previewing changes" +:+ nl))
  | Apply => Some (Text "APPLY mode requested")
  | Destroy => Some (Text "DESTROY mode requested")
  | ReportOnly => None
  end.

(** [w] with a file of the given lines at [path]. *)
Definition with_file (path : string) (lines : list string) (w : World) : World :=
  {| HAS_DOTENV := HAS_DOTENV w; HAS_YAML := HAS_YAML w;
     path_exists := λ p, String.eqb p path || path_exists w p;
     read_lines := λ p, if String.eqb p path then lines else read_lines w p;
     getenv := getenv w; yaml_safe_load := yaml_safe_load w;
     spawn := spawn w; spawn_error := spawn_error w;
     glob_bicep := glob_bicep w |}.

(** [w] with other tools installed and other infrastructure files: only
    what [run], [Path("infra")] and its [glob] observe changes. *)
Definition with_tools (tools : list string → option (Z * string * string))
    (infra : bool) (bicep_files : list string) (w : World) : World :=
  {| HAS_DOTENV := HAS_DOTENV w; HAS_YAML := HAS_YAML w;
     path_exists := λ p, if String.eqb p "infra" then infra else path_exists w p;
     read_lines := read_lines w; getenv := getenv w;
     yaml_safe_load := yaml_safe_load w;
     spawn := tools; spawn_error := spawn_error w;
     glob_bicep := bicep_files |}.

(** The key and the text of the value of a line of the environment file that
    is neither blank nor a comment and has an [=]. *)
Definition env_entry (line : string) : option (string * string) :=
  let line := strip line in
  if negb (String.eqb line "") && negb (startswith "#" line) then
    match cut "=" line with
    | Some (key, value) => Some (strip key, strip value)
    | None => None
    end
  else None.

(** The key a line of the environment file sets, if it sets one. *)
Definition env_key (line : string) : option string := fst <$> env_entry line.

(** The key a line of the output of [azd env get-values] sets, if it sets
    one. *)
Definition azd_key (line : string) : option string :=
  if negb (String.eqb (strip line) "") then fst <$> cut "=" (strip line)
  else None.

(** The key a [--set] argument sets, if it sets one. *)
Definition set_key (param : string) : option string := fst <$> cut "=" param.

(** The command line or the environment supplies the field. *)
Definition given (cli envv : option string) : bool :=
  truthy (of_opt_str cli) || truthy (of_opt_str envv).

(** [resolve_config] reads no section that is not a mapping: the structured
    file is a mapping, and a section that is not one has every field it could
    supply given from elsewhere. *)
Definition resolvable (a : args.Namespace) (env_vars : gmap string string)
    (doc : pyval) : bool :=
  match doc with
  | PDict _ =>
      (section_ok doc "azure"
       || given (args.subscription a) (env_vars !! "AZURE_SUBSCRIPTION_ID")
          && given (args.location a) (env_vars !! "AZURE_LOCATION"))
      && (section_ok doc "environment"
          || given (args.env a) (env_vars !! "AZURE_ENV_NAME")
             && given (args.profile a) (env_vars !! "PROFILE"))
      && (section_ok doc "deployment" || args.dry_run a && args.what_if a)
  | _ => false
  end.

(** The builder reads the first character of no empty name: [resources] is
    a mapping and every enabled mapping in it has a name with a character
    other than the underscore. *)
Definition buildable (config : OrchestratorConfig) : bool :=
  match resources config with
  | PDict items =>
      forallb (λ item, negb (enabled_mapping (snd item))
                       || negb (only_underscores (fst item))) items
  | _ => false
  end.

(** The parameter an entry of [resources] writes, if it writes one. *)
Definition written_by (item : string * pyval) : option (string * pyval) :=
  match camel (fst item), sku_of (snd item) with
  | Some p, Some sku => Some (p +:+ "Sku", sku)
  | _, _ => None
  end.

(** The Bicep build of a file ends with status 0. *)
Definition builds (w : World) (bicep_file : string) : bool :=
  match spawn w ["az"; "bicep"; "build"; "--file"; bicep_file; "--stdout"] with
  | Some (code, _, _) => code =? 0
  | None => false
  end.

(** The double and the single quote. *)
Definition dquote : ascii := "034".
Definition squote : ascii := "039".

(** [value] is [v] as [azd] may print it: bare, or between two double or two
    single quotes. *)
Definition quoted (v value : string) : Prop :=
  value = v
  ∨ value = String dquote (v +:+ String dquote "")
  ∨ value = String squote (v +:+ String squote "").

(** A text with no quote and no white space at its end, and no quote at its
    start. *)
Definition bare (v : string) : Prop :=
  first_char v ≠ Some dquote ∧ first_char v ≠ Some squote
  ∧ last_char v ≠ Some dquote ∧ last_char v ≠ Some squote
  ∧ fails_on is_space (last_char v).

(** A Bicep file that exists and builds. *)
Definition valid_bicep (w : World) (bicep_file : string) : bool :=
  path_exists w bicep_file && builds w bicep_file.

(** The parameters [build_infra_params] starts from: the configuration's
    own fields. *)
Definition own_params (config : OrchestratorConfig) : gmap string pyval :=
  let params : gmap string pyval :=
    <["environmentName" := env_name config]> (<["location" := location config]> ∅) in
  if truthy (subscription_id config)
  then <["subscriptionId" := subscription_id config]> params
  else params.

(** The effect of an entry of [resources] on the parameters. *)
Definition write (params : gmap string pyval) (item : string * pyval)
  : gmap string pyval :=
  match written_by item with
  | Some (k, v) => <[k := v]> params
  | None => params
  end.

(** The entry does not stop the builder. *)
Definition passes (item : string * pyval) : bool :=
  negb (enabled_mapping (snd item)) || negb (only_underscores (fst item)).

(** An environment file that sets [A] twice and gives [B] a value with an
    [=] in it. *)
Definition env_world : World :=
  with_env ["A=1" +:+ nl; "A = 2 " +:+ nl; "B=x=y" +:+ nl] bare_world.

(** [--set a=1 --set a=2=3 --set novalue]. *)
Definition set_args : args.Namespace :=
  {| args.dry_run := false; args.what_if := false; args.apply := false;
     args.destroy := false; args.resources := false; args.profile := None;
     args.env := None; args.location := None; args.subscription := None;
     args.set := Some ["a=1"; "a=2=3"; "novalue"] |}.

Definition set_config : OrchestratorConfig :=
  {| subscription_id := PNone; location := PStr "eastus";
     env_name := PStr "dev"; profile := PStr "default";
     resources := default_resources;
     dry_run := PBool false; what_if := PBool false;
     apply := false; destroy := false;
     extra_params := {[ "a" := "2=3" ]} |}.

(** [azd env get-values] prints [A=1] and then [B], with its value between
    double quotes, each on a line of its own. *)
Definition azd_output : string :=
  "A=1" +:+ nl +:+ "B=" +:+ String dquote ("two" +:+ String dquote nl).

Definition azd_world : World :=
  with_tool ["azd"; "env"; "get-values"] (0, azd_output, "") bare_world.

(** A configuration with one resource and no extra parameter. *)
Definition sales_config : OrchestratorConfig :=
  {| subscription_id := PNone; location := PStr "eastus";
     env_name := PStr "dev"; profile := PStr "default";
     resources := sales_catalog;
     dry_run := PBool false; what_if := PBool false;
     apply := false; destroy := false;
     extra_params := ∅ |}.

(** What the resolver makes of [westus2_args] on a machine with no file. *)
Definition westus2_config : OrchestratorConfig :=
  {| subscription_id := PNone; location := PStr "westus2";
     env_name := PStr "dev"; profile := PStr "default";
     resources := default_resources;
     dry_run := PBool false; what_if := PBool false;
     apply := true; destroy := false;
     extra_params := ∅ |}.

(** An [infra] directory with two Bicep files: [a.bicep] does not build,
    [b.bicep] does. *)
Definition bicep_world : World :=
  with_file "infra/a.bicep" []
    (with_file "infra/b.bicep" []
       (with_tools
          (λ command,
             if bool_decide
                  (command = ["az"; "bicep"; "build"; "--file";
                              "infra/b.bicep"; "--stdout"])
             then Some (0, "{}", "")
             else Some (1, "", "syntax error"))
          true ["infra/a.bicep"; "infra/b.bicep"] bare_world)).

(** Every command succeeds. *)
Definition all_installed (command : list string) : option (Z * string * string) :=
  Some (0, "1.0", "").

(** * Proofs *)

(** ** Monads *)

Lemma result_bind_Ok {A B} (m : result A) (f : A → result B) (b : B) :
  (x ← m; f x) = Ok b ↔ ∃ a, m = Ok a ∧ f a = Ok b.
Proof.
  destruct m as [a|e]; simpl; split.
  - intros H. exists a. auto.
  - intros (a' & Ha & H). congruence.
  - discriminate.
  - intros (a' & Ha & _). discriminate.
Qed.

Lemma io_bind_res {A B} (m : IO A) (f : A → IO B) :
  io_res (x ← m; f x) =
  match io_res m with Ok a => io_res (f a) | Raise e => Raise e end.
Proof. unfold mbind, IO_bind. destruct (io_res m); reflexivity. Qed.

Lemma io_bind_log_Ok {A B} (m : IO A) (f : A → IO B) (a : A) :
  io_res m = Ok a → io_log (x ← m; f x) = io_log m ++ io_log (f a).
Proof. intros H. unfold mbind, IO_bind. rewrite H. reflexivity. Qed.

(** ** The resolver *)

Lemma load_yaml_config_res (w : World) :
  io_res (load_yaml_config w "config.yaml") = Ok (yaml_doc w).
Proof.
  unfold load_yaml_config, yaml_doc.
  destruct (HAS_YAML w && path_exists w "config.yaml"); [reflexivity|].
  destruct (path_exists w "config.yaml"); reflexivity.
Qed.

Lemma resolve_config_res (w : World) (a : args.Namespace) :
  io_res (resolve_config w a) = merge a (env_mapping w) (yaml_doc w).
Proof.
  unfold resolve_config. rewrite io_bind_res, load_yaml_config_res. reflexivity.
Qed.

Lemma py_or_Ok (v : pyval) (r : result pyval) (x : pyval) :
  py_or v r = Ok x → (truthy v = true ∧ x = v) ∨ (truthy v = false ∧ r = Ok x).
Proof.
  unfold py_or. destruct (truthy v); intros H; [left|right]; split; congruence.
Qed.

Lemma truthy_of_opt_str (o : option string) :
  truthy (of_opt_str o) = bool_decide (is_Some (non_empty o)).
Proof.
  destruct o as [s|]; simpl; [|reflexivity].
  destruct (String.eqb s ""); reflexivity.
Qed.

Lemma section_get (top : list (string * pyval)) (section k : string)
    (dflt v : pyval) :
  py_get (default (PDict []) (items_get top section)) k dflt = Ok v →
  v = default dflt (file_value (PDict top) section k)
  ∧ section_ok (PDict top) section = true.
Proof.
  unfold file_value, section_ok, top_value.
  destruct (items_get top section) as [[]|]; simpl; try discriminate;
    intros [= <-]; auto.
Qed.

Lemma section_get_ok (top : list (string * pyval)) (section k : string)
    (dflt : pyval) :
  section_ok (PDict top) section = true →
  py_get (default (PDict []) (items_get top section)) k dflt
  = Ok (default dflt (file_value (PDict top) section k)).
Proof.
  unfold file_value, section_ok, top_value.
  destruct (items_get top section) as [[]|]; simpl; try discriminate; auto.
Qed.

(** One scalar field: the value the [or] chain yields is [resolved_scalar]
    of its three sources. *)
Lemma scalar_chain (cli envv : option string) (top : list (string * pyval))
    (section k : string) (dflt v : pyval) :
  py_or (of_opt_str cli)
    (py_or (of_opt_str envv)
       (py_get (default (PDict []) (items_get top section)) k dflt)) = Ok v →
  v = resolved_scalar cli envv (file_value (PDict top) section k) dflt.
Proof.
  unfold resolved_scalar. intros H.
  apply py_or_Ok in H as [[Ht ->]|[Ht H]]; rewrite truthy_of_opt_str in Ht.
  - destruct (non_empty cli) as [s|] eqn:E; [|discriminate].
    destruct cli as [c|]; simpl in *; [|discriminate].
    destruct (String.eqb c ""); congruence.
  - destruct (non_empty cli); [discriminate|].
    apply py_or_Ok in H as [[Ht' ->]|[Ht' H]]; rewrite truthy_of_opt_str in Ht'.
    + destruct (non_empty envv) as [s|] eqn:E; [|discriminate].
      destruct envv as [c|]; simpl in *; [|discriminate].
      destruct (String.eqb c ""); congruence.
    + destruct (non_empty envv); [discriminate|].
      apply section_get in H as [-> _]. reflexivity.
Qed.

Lemma scalar_chain_ok (cli envv : option string) (top : list (string * pyval))
    (section k : string) (dflt : pyval) :
  section_ok (PDict top) section = true →
  ∃ v, py_or (of_opt_str cli)
         (py_or (of_opt_str envv)
            (py_get (default (PDict []) (items_get top section)) k dflt)) = Ok v.
Proof.
  intros Hs. unfold py_or.
  destruct (truthy (of_opt_str cli)); [eauto|].
  destruct (truthy (of_opt_str envv)); [eauto|].
  rewrite section_get_ok by assumption. eauto.
Qed.

Lemma flag_chain (cli : bool) (top : list (string * pyval)) (k : string)
    (v : pyval) :
  py_or (PBool cli)
    (py_get (default (PDict []) (items_get top "deployment")) k (PBool false)) = Ok v →
  v = resolved_flag cli (file_value (PDict top) "deployment" k).
Proof.
  unfold resolved_flag. intros H.
  apply py_or_Ok in H as [[Ht ->]|[Ht H]]; simpl in Ht; subst cli; [reflexivity|].
  apply section_get in H as [-> _]. reflexivity.
Qed.

Lemma flag_chain_ok (cli : bool) (top : list (string * pyval)) (k : string) :
  section_ok (PDict top) "deployment" = true →
  ∃ v, py_or (PBool cli)
         (py_get (default (PDict []) (items_get top "deployment")) k (PBool false)) = Ok v.
Proof.
  intros Hs. unfold py_or. destruct (truthy (PBool cli)); [eauto|].
  rewrite section_get_ok by assumption. eauto.
Qed.

Lemma post_init_resources (c : OrchestratorConfig) :
  resources (post_init c)
  = if truthy (resources c) then resources c else default_resources.
Proof. unfold post_init. destruct (truthy (resources c)); reflexivity. Qed.

Lemma post_init_scalars (c : OrchestratorConfig) :
  subscription_id (post_init c) = subscription_id c
  ∧ location (post_init c) = location c
  ∧ env_name (post_init c) = env_name c
  ∧ profile (post_init c) = profile c
  ∧ dry_run (post_init c) = dry_run c
  ∧ what_if (post_init c) = what_if c
  ∧ apply (post_init c) = apply c
  ∧ destroy (post_init c) = destroy c.
Proof. unfold post_init. destruct (truthy (resources c)); simpl; tauto. Qed.

(** Every field of a configuration that [merge] returns, in terms of the
    three sources. *)
Lemma merge_fields (a : args.Namespace) (env_vars : gmap string string)
    (doc : pyval) (cfg : OrchestratorConfig) :
  merge a env_vars doc = Ok cfg →
  subscription_id cfg
    = resolved_scalar (args.subscription a) (env_vars !! "AZURE_SUBSCRIPTION_ID")
        (file_value doc "azure" "subscription_id") PNone
  ∧ location cfg
    = resolved_scalar (args.location a) (env_vars !! "AZURE_LOCATION")
        (file_value doc "azure" "location") (PStr "eastus")
  ∧ env_name cfg
    = resolved_scalar (args.env a) (env_vars !! "AZURE_ENV_NAME")
        (file_value doc "environment" "name") (PStr "dev")
  ∧ profile cfg
    = resolved_scalar (args.profile a) (env_vars !! "PROFILE")
        (file_value doc "environment" "profile") (PStr "default")
  ∧ resources cfg
    = match top_value doc "resources" with
      | Some block => if truthy block then block else default_resources
      | None => default_resources
      end
  ∧ dry_run cfg
    = resolved_flag (args.dry_run a) (file_value doc "deployment" "dry_run")
  ∧ what_if cfg
    = resolved_flag (args.what_if a) (file_value doc "deployment" "what_if")
  ∧ apply cfg = args.apply a
  ∧ destroy cfg = args.destroy a.
Proof.
  unfold merge. destruct doc as [| | | | |top]; try discriminate. simpl.
  intros H.
  apply result_bind_Ok in H as (v1 & H1 & H). apply scalar_chain in H1.
  apply result_bind_Ok in H as (v2 & H2 & H). apply scalar_chain in H2.
  apply result_bind_Ok in H as (v3 & H3 & H). apply scalar_chain in H3.
  apply result_bind_Ok in H as (v4 & H4 & H). apply scalar_chain in H4.
  apply result_bind_Ok in H as (v5 & H5 & H). apply flag_chain in H5.
  apply result_bind_Ok in H as (v6 & H6 & H). apply flag_chain in H6.
  injection H as <-. simpl.
  rewrite post_init_resources.
  match goal with |- context [post_init ?c] =>
    destruct (post_init_scalars c) as (-> & -> & -> & -> & -> & -> & -> & ->)
  end.
  simpl. subst.
  repeat split; try reflexivity.
  destruct (args.resources a); destruct (items_get top "resources") as [b|];
    reflexivity.
Qed.

Lemma merge_returns (a : args.Namespace) (env_vars : gmap string string)
    (doc : pyval) :
  sections_ok doc = true → ∃ cfg, merge a env_vars doc = Ok cfg.
Proof.
  destruct doc as [| | | | |top]; try discriminate. simpl.
  intros H. apply andb_true_iff in H as [H Hd].
  apply andb_true_iff in H as [Ha He].
  unfold merge. simpl. unfold env_get.
  destruct (scalar_chain_ok (args.subscription a)
              (env_vars !! "AZURE_SUBSCRIPTION_ID") top "azure"
              "subscription_id" PNone Ha) as [v1 ->].
  destruct (scalar_chain_ok (args.location a) (env_vars !! "AZURE_LOCATION")
              top "azure" "location" (PStr "eastus") Ha) as [v2 ->].
  destruct (scalar_chain_ok (args.env a) (env_vars !! "AZURE_ENV_NAME")
              top "environment" "name" (PStr "dev") He) as [v3 ->].
  destruct (scalar_chain_ok (args.profile a) (env_vars !! "PROFILE")
              top "environment" "profile" (PStr "default") He) as [v4 ->].
  destruct (flag_chain_ok (args.dry_run a) top "dry_run" Hd) as [v5 ->].
  destruct (flag_chain_ok (args.what_if a) top "what_if" Hd) as [v6 ->].
  simpl. eauto.
Qed.

Lemma resolved_scalar_cli (s : string) (envv : option string)
    (file : option pyval) (dflt : pyval) :
  s ≠ "" → resolved_scalar (Some s) envv file dflt = PStr s.
Proof.
  intros Hs. unfold resolved_scalar, non_empty.
  destruct (String.eqb_spec s ""); [contradiction|reflexivity].
Qed.

(** C1 (amended). For each scalar field ([subscription_id], [location],
    [env_name], [profile]) [resolve_config] takes the command-line value when
    it is given and not empty; else the value of the field's key in the
    environment mapping when it is there and not empty; else the value
    stored under the field's path in the structured file whenever the key is
    present there, whatever that value is; else the hard-coded default
    ([None] for the subscription).  Each field is a function of its own
    three sources only, so no field affects a sibling; an empty command-line
    string resolves as an absent one; a non-empty command-line string is the
    result whatever the other sources hold.  The resolver returns a
    configuration whenever the sections of the structured file are
    mappings. *)
Theorem resolve_config_scalar_precedence (w : World) (a : args.Namespace) :
  (∀ cfg, io_res (resolve_config w a) = Ok cfg →
     subscription_id cfg
       = resolved_scalar (args.subscription a)
           (env_mapping w !! "AZURE_SUBSCRIPTION_ID")
           (file_value (yaml_doc w) "azure" "subscription_id") PNone
     ∧ location cfg
       = resolved_scalar (args.location a) (env_mapping w !! "AZURE_LOCATION")
           (file_value (yaml_doc w) "azure" "location") (PStr "eastus")
     ∧ env_name cfg
       = resolved_scalar (args.env a) (env_mapping w !! "AZURE_ENV_NAME")
           (file_value (yaml_doc w) "environment" "name") (PStr "dev")
     ∧ profile cfg
       = resolved_scalar (args.profile a) (env_mapping w !! "PROFILE")
           (file_value (yaml_doc w) "environment" "profile") (PStr "default"))
  ∧ (sections_ok (yaml_doc w) = true →
     ∃ cfg, io_res (resolve_config w a) = Ok cfg)
  ∧ (∀ s envv file dflt, s ≠ "" → resolved_scalar (Some s) envv file dflt = PStr s)
  ∧ (∀ envv file dflt,
       resolved_scalar (Some "") envv file dflt = resolved_scalar None envv file dflt).
Proof.
  repeat split.
  1-4: rewrite resolve_config_res in H; apply merge_fields in H; tauto.
  - rewrite resolve_config_res. apply merge_returns.
  - intros. by apply resolved_scalar_cli.
Qed.

(** The command line says [westus2], the environment file [centralus] and
    the structured file [northeurope]: the location is [westus2]. *)
Lemma resolve_config_cli_location_wins :
  ∃ cfg, io_res (resolve_config layered_world westus2_args) = Ok cfg
         ∧ location cfg = PStr "westus2" ∧ env_name cfg = PStr "staging".
Proof.
  destruct (resolve_config_scalar_precedence layered_world westus2_args)
    as (Hfields & Hret & _).
  destruct (Hret eq_refl) as [cfg Hcfg].
  exists cfg. split; [exact Hcfg|].
  destruct (Hfields cfg Hcfg) as (_ & -> & -> & _).
  split; vm_compute; reflexivity.
Defined.

(** C1 (as stated) fails: with nothing on the command line and in the
    environment, and [azure.location] present but empty in the structured
    file, the resolved location is that empty string, although the first
    non-empty candidate is the default [eastus]. *)
Lemma empty_file_value_is_taken :
  ∃ cfg, io_res (resolve_config empty_location_world no_args) = Ok cfg
         ∧ location cfg = PStr ""
         ∧ first_non_empty (args.location no_args)
             (env_mapping empty_location_world !! "AZURE_LOCATION")
             (file_value (yaml_doc empty_location_world) "azure" "location")
             (PStr "eastus") = PStr "eastus".
Proof. eexists. repeat split; vm_compute; reflexivity. Qed.

(** C2 (amended). The resolved [resources] field is the structured file's
    [resources] value verbatim whenever the file has one and it is not empty
    (truthy), and it is the built-in four-entry default set whenever the file
    has no [resources] section or an empty one; the command line and the
    environment mapping have no part in it. *)
Theorem resolve_config_resources (w : World) (a : args.Namespace)
    (cfg : OrchestratorConfig) :
  io_res (resolve_config w a) = Ok cfg →
  (∀ block, top_value (yaml_doc w) "resources" = Some block →
            truthy block = true → resources cfg = block)
  ∧ (∀ block, top_value (yaml_doc w) "resources" = Some block →
              truthy block = false → resources cfg = default_resources)
  ∧ (top_value (yaml_doc w) "resources" = None →
     resources cfg = default_resources)
  ∧ default_resources
    = PDict [ ("container_registry", PDict [("enabled", PBool true)]);
              ("storage_account", PDict [("enabled", PBool true)]);
              ("ai_services", PDict [("enabled", PBool true)]);
              ("search_service", PDict [("enabled", PBool true)]) ].
Proof.
  rewrite resolve_config_res. intros H.
  apply merge_fields in H as (_ & _ & _ & _ & -> & _).
  repeat split.
  - intros block -> ->. reflexivity.
  - intros block -> ->. reflexivity.
  - intros ->. reflexivity.
Qed.

(** A file listing [sales_catalog] resolves to exactly that block. *)
Lemma resolve_config_resources_verbatim :
  ∃ cfg, io_res (resolve_config sales_catalog_world no_args) = Ok cfg
         ∧ resources cfg = sales_catalog.
Proof.
  destruct (merge_returns no_args (env_mapping sales_catalog_world)
              (yaml_doc sales_catalog_world) eq_refl) as [cfg Hcfg].
  rewrite <- resolve_config_res in Hcfg.
  exists cfg. split; [exact Hcfg|].
  exact (proj1 (resolve_config_resources sales_catalog_world no_args cfg Hcfg)
           sales_catalog eq_refl eq_refl).
Defined.

(** C2 (as stated) fails: the structured file has a [resources] block, the
    empty mapping, and the resolved field is not that block but the default
    set. *)
Lemma empty_resources_block_gets_defaults :
  ∃ cfg, io_res (resolve_config empty_resources_world no_args) = Ok cfg
         ∧ top_value (yaml_doc empty_resources_world) "resources" = Some (PDict [])
         ∧ resources cfg = default_resources
         ∧ resources cfg ≠ PDict [].
Proof.
  eexists. split; [vm_compute; reflexivity|]. repeat split; discriminate.
Qed.

(** With no command-line value, no environment value and no
    structured-file value for any scalar field, a configuration that the
    resolver returns has the location [eastus], the environment name [dev],
    the profile [default] and no subscription. *)
Lemma resolve_config_fallback_fields (w : World) (a : args.Namespace)
    (cfg : OrchestratorConfig) :
  unsupplied (args.subscription a) (env_mapping w !! "AZURE_SUBSCRIPTION_ID")
    (file_value (yaml_doc w) "azure" "subscription_id") →
  unsupplied (args.location a) (env_mapping w !! "AZURE_LOCATION")
    (file_value (yaml_doc w) "azure" "location") →
  unsupplied (args.env a) (env_mapping w !! "AZURE_ENV_NAME")
    (file_value (yaml_doc w) "environment" "name") →
  unsupplied (args.profile a) (env_mapping w !! "PROFILE")
    (file_value (yaml_doc w) "environment" "profile") →
  io_res (resolve_config w a) = Ok cfg →
  location cfg = PStr "eastus"
  ∧ env_name cfg = PStr "dev"
  ∧ profile cfg = PStr "default"
  ∧ subscription_id cfg = PNone.
Proof.
  intros (Hs1 & Hs2 & Hs3) (Hl1 & Hl2 & Hl3) (He1 & He2 & He3)
    (Hp1 & Hp2 & Hp3).
  rewrite resolve_config_res. intros Hcfg.
  apply merge_fields in Hcfg as (-> & -> & -> & -> & _).
  rewrite Hs1, Hs2, Hs3, Hl1, Hl2, Hl3, He1, He2, He3, Hp1, Hp2, Hp3.
  repeat split.
Qed.

(** It does return one when the sections of the structured file are
    mappings, the absent file included. *)
Lemma resolve_config_total_fallback (w : World) (a : args.Namespace) :
  sections_ok (yaml_doc w) = true →
  unsupplied (args.subscription a) (env_mapping w !! "AZURE_SUBSCRIPTION_ID")
    (file_value (yaml_doc w) "azure" "subscription_id") →
  unsupplied (args.location a) (env_mapping w !! "AZURE_LOCATION")
    (file_value (yaml_doc w) "azure" "location") →
  unsupplied (args.env a) (env_mapping w !! "AZURE_ENV_NAME")
    (file_value (yaml_doc w) "environment" "name") →
  unsupplied (args.profile a) (env_mapping w !! "PROFILE")
    (file_value (yaml_doc w) "environment" "profile") →
  ∃ cfg, io_res (resolve_config w a) = Ok cfg
         ∧ location cfg = PStr "eastus"
         ∧ env_name cfg = PStr "dev"
         ∧ profile cfg = PStr "default"
         ∧ subscription_id cfg = PNone.
Proof.
  intros Hok Hs Hl He Hp.
  destruct (merge_returns a (env_mapping w) (yaml_doc w) Hok) as [cfg Hcfg].
  rewrite <- resolve_config_res in Hcfg.
  exists cfg. split; [exact Hcfg|].
  exact (resolve_config_fallback_fields w a cfg Hs Hl He Hp Hcfg).
Qed.

(** No file at all and an empty command line. *)
Lemma resolve_config_total_fallback_bare :
  ∃ cfg, io_res (resolve_config bare_world no_args) = Ok cfg
         ∧ location cfg = PStr "eastus"
         ∧ env_name cfg = PStr "dev"
         ∧ profile cfg = PStr "default"
         ∧ subscription_id cfg = PNone.
Proof.
  apply (resolve_config_total_fallback bare_world no_args);
    repeat split; reflexivity.
Defined.

(** C8 (defect in the code). With no command-line value, no environment
    value and no structured-file value for any scalar field, the resolver is
    meant to return the defaults.  A [config.yaml] whose [azure:] header has
    nothing under it supplies no value for any of the four fields, and the
    resolver returns nothing: it calls [.get] on the [None] that stands for
    the section and raises [AttributeError].  The defect is the one of
    C6. *)
Theorem resolve_config_null_section_raises :
  unsupplied (args.subscription no_args)
    (env_mapping null_section_world !! "AZURE_SUBSCRIPTION_ID")
    (file_value (yaml_doc null_section_world) "azure" "subscription_id")
  ∧ unsupplied (args.location no_args)
      (env_mapping null_section_world !! "AZURE_LOCATION")
      (file_value (yaml_doc null_section_world) "azure" "location")
  ∧ unsupplied (args.env no_args)
      (env_mapping null_section_world !! "AZURE_ENV_NAME")
      (file_value (yaml_doc null_section_world) "environment" "name")
  ∧ unsupplied (args.profile no_args)
      (env_mapping null_section_world !! "PROFILE")
      (file_value (yaml_doc null_section_world) "environment" "profile")
  ∧ io_res (resolve_config null_section_world no_args) = Raise AttributeError.
Proof.
  unfold unsupplied.
  repeat match goal with |- _ ∧ _ => split end; vm_compute; reflexivity.
Qed.

(** C9. [--resources] is display-only: two command lines that differ in that
    flag alone resolve, in any world, to the same outcome, the same
    configuration with the same [resources] field, or the same error,
    after the same output. *)
Theorem resources_flag_display_only (w : World) (a : args.Namespace)
    (b b' : bool) :
  resolve_config w (with_resources_flag b a)
  = resolve_config w (with_resources_flag b' a).
Proof.
  unfold resolve_config, mbind, IO_bind.
  destruct (io_res (load_yaml_config w "config.yaml")) as [doc|e];
    [|reflexivity].
  unfold merge. simpl. destruct b, b'; reflexivity.
Qed.

Lemma truthy_resolved_flag (cli : bool) (file : option pyval) :
  truthy (resolved_flag cli file) = cli || truthy (default (PBool false) file).
Proof. destruct cli; reflexivity. Qed.

(** C10. The resolved [apply] and [destroy] flags are exactly the
    command-line flags, whatever the environment mapping and the structured
    file hold, whereas [dry_run] and [what_if] are the Python disjunction
    of the command-line flag with [deployment.dry_run] and
    [deployment.what_if] of the structured file (false when absent): true
    when the flag is given, else the file's value, so that the resolved flag
    holds exactly when one of the two does. *)
Theorem resolve_config_action_flags (w : World) (a : args.Namespace)
    (cfg : OrchestratorConfig) :
  io_res (resolve_config w a) = Ok cfg →
  apply cfg = args.apply a
  ∧ destroy cfg = args.destroy a
  ∧ dry_run cfg
    = resolved_flag (args.dry_run a)
        (file_value (yaml_doc w) "deployment" "dry_run")
  ∧ what_if cfg
    = resolved_flag (args.what_if a)
        (file_value (yaml_doc w) "deployment" "what_if")
  ∧ truthy (dry_run cfg)
    = args.dry_run a
      || truthy (default (PBool false)
                   (file_value (yaml_doc w) "deployment" "dry_run"))
  ∧ truthy (what_if cfg)
    = args.what_if a
      || truthy (default (PBool false)
                   (file_value (yaml_doc w) "deployment" "what_if")).
Proof.
  rewrite resolve_config_res. intros H.
  apply merge_fields in H as (_ & _ & _ & _ & _ & -> & -> & -> & ->).
  rewrite !truthy_resolved_flag. repeat split.
Qed.

(** [--apply] on the command line and [deployment.dry_run: true] in the
    file: both flags are set in the configuration, [destroy] is not. *)
Lemma resolve_config_action_flags_layered :
  ∃ cfg, io_res (resolve_config layered_world westus2_args) = Ok cfg
         ∧ apply cfg = true ∧ destroy cfg = false
         ∧ dry_run cfg = PBool true ∧ what_if cfg = PBool false.
Proof.
  destruct (merge_returns westus2_args (env_mapping layered_world)
              (yaml_doc layered_world) eq_refl) as [cfg Hcfg].
  rewrite <- resolve_config_res in Hcfg.
  exists cfg. split; [exact Hcfg|].
  destruct (resolve_config_action_flags layered_world westus2_args cfg Hcfg)
    as (-> & -> & -> & -> & _).
  repeat split.
Defined.

(** ** The parameter builder *)

Lemma split_not_nil (sep : ascii) (s : string) : split sep s ≠ [].
Proof.
  induction s as [|c rest IH]; simpl; [discriminate|].
  destruct (Ascii.eqb c sep); [discriminate|].
  destruct (split sep rest); [contradiction|discriminate].
Qed.

(** [param_name[0]] has nothing to read exactly for names made of
    underscores alone, the empty name included. *)
Lemma camel_None (resource_name : string) :
  camel resource_name = None ↔ only_underscores resource_name = true.
Proof.
  unfold camel.
  assert (H : join (map capitalize (split "_" resource_name)) = EmptyString
              ↔ only_underscores resource_name = true).
  { induction resource_name as [|c rest IH]; simpl; [tauto|].
    destruct (Ascii.eqb c "_"); simpl; [exact IH|].
    pose proof (split_not_nil "_" rest) as Hne.
    destruct (split "_" rest) as [|w ws]; [contradiction|].
    simpl. split; discriminate. }
  destruct (join (map capitalize (split "_" resource_name))).
  - tauto.
  - split; [discriminate|]. intros Hu. apply H in Hu. discriminate.
Qed.

(** One iteration of the loop: an enabled mapping has its name camel-cased,
    which fails on a name of underscores, and then writes its [sku] if it
    has one; any other entry leaves the parameters alone. *)
Lemma resource_param_spec (params : gmap string pyval) (name : string)
    (resource_config : pyval) :
  resource_param params (name, resource_config)
  = if enabled_mapping resource_config then
      match camel name with
      | None => Raise IndexError
      | Some p =>
          Ok (match top_value resource_config "sku" with
              | Some sku => <[p +:+ "Sku" := sku]> params
              | None => params
              end)
      end
    else Ok params.
Proof.
  unfold resource_param, enabled_mapping, camel, top_value.
  destruct resource_config as [| | | | |rc]; try reflexivity. simpl.
  destruct (truthy (default (PBool true) (items_get rc "enabled")));
    [|reflexivity].
  destruct (join (map capitalize (split "_" name))); simpl; [reflexivity|].
  destruct (items_get rc "sku"); reflexivity.
Qed.

(** Entries that are not mappings or are disabled never stop the loop, and
    write nothing. *)
Lemma resource_param_skipped (params : gmap string pyval) (name : string)
    (resource_config : pyval) :
  enabled_mapping resource_config = false →
  resource_param params (name, resource_config) = Ok params.
Proof. intros H. rewrite resource_param_spec, H. reflexivity. Qed.

(** An enabled mapping with a [sku], under a name with a character other
    than the underscore, writes its parameter. *)
Lemma resource_param_written (params : gmap string pyval) (name : string)
    (resource_config sku : pyval) :
  only_underscores name = false →
  sku_of resource_config = Some sku →
  ∃ p, camel name = Some p
       ∧ resource_param params (name, resource_config)
         = Ok (<[p +:+ "Sku" := sku]> params).
Proof.
  intros Hn Hs. unfold sku_of in Hs. rewrite resource_param_spec.
  destruct (enabled_mapping resource_config); [|discriminate].
  destruct (camel name) as [p|] eqn:Hc.
  - exists p. rewrite Hs. auto.
  - apply camel_None in Hc. congruence.
Qed.

Lemma build_infra_params_Ok (config : OrchestratorConfig)
    (params : gmap string pyval) :
  build_infra_params config = Ok params →
  ∃ written, params = (PStr <$> extra_params config) ∪ written.
Proof.
  unfold build_infra_params. intros H.
  apply result_bind_Ok in H as (items & _ & H).
  apply result_bind_Ok in H as (written & _ & H).
  injection H as <-. eauto.
Qed.

(** C4. [build_infra_params] merges [extra_params] last: every key of
    [extra_params] is mapped, in the parameters returned, to its
    [extra_params] value, also when the configuration's own fields or a
    resource had written that key. *)
Theorem build_infra_params_extra_params_win (config : OrchestratorConfig)
    (params : gmap string pyval) (k v : string) :
  build_infra_params config = Ok params →
  extra_params config !! k = Some v →
  params !! k = Some (PStr v).
Proof.
  intros H Hk. apply build_infra_params_Ok in H as [written ->].
  apply lookup_union_Some_l. rewrite lookup_fmap, Hk. reflexivity.
Qed.

Lemma override_config_builds :
  is_ok (build_infra_params override_config) = true.
Proof. vm_compute. reflexivity. Qed.

(** The location of the configuration is [eastus], the extra parameters say
    [override-region]: the parameters say [override-region]. *)
Lemma build_infra_params_location_override :
  ∃ params, build_infra_params override_config = Ok params
            ∧ location override_config = PStr "eastus"
            ∧ params !! "location" = Some (PStr "override-region").
Proof.
  destruct (build_infra_params override_config) as [params|e] eqn:E.
  - exists params. split; [reflexivity|]. split; [reflexivity|].
    apply (build_infra_params_extra_params_win override_config params
             "location" "override-region" E).
    vm_compute. reflexivity.
  - pose proof override_config_builds as H. rewrite E in H. discriminate H.
Defined.

(** C3 (defect in the code). An entry of [resources] with no [sku] is meant
    to contribute no parameter and never to fail.  The entry [_: {enabled:
    true}] of a structured file reaches the builder unchanged, has no [sku]
    to emit, and the builder raises [IndexError] on it: the name is
    camel-cased before the [sku] is looked for, and [param_name[0]] reads
    the first character of an empty string. *)
Theorem build_infra_params_underscore_name_raises :
  io_res (resolve_config underscore_world no_args) = Ok underscore_config
  ∧ top_value (resources underscore_config) "_"
    = Some (PDict [("enabled", PBool true)])
  ∧ sku_of (PDict [("enabled", PBool true)]) = None
  ∧ build_infra_params underscore_config = Raise IndexError.
Proof.
  split; [vm_compute; reflexivity|].
  split; [reflexivity|]. split; [reflexivity|].
  vm_compute. reflexivity.
Qed.

(** ** The tool inspector *)

(** Without [check], [run] returns for every non-empty command that
    [subprocess.run] accepts: the child's outcome, or status 127 when the
    executable is missing.  What [subprocess.run] raises besides goes
    through. *)
Lemma run_unchecked (w : World) (c : string) (cs : list string) (capture : bool) :
  run w (c :: cs) capture false
  = match spawn_error w (c :: cs) with
    | Some f => Raise (launch_exn f)
    | None =>
        Ok match spawn w (c :: cs) with
           | Some (code, o, e) =>
               {| returncode := code;
                  stdout := if capture then Some o else None;
                  stderr := if capture then Some e else None |}
           | None =>
               {| returncode := 127; stdout := Some "";
                  stderr := Some ("Command not found: " +:+ c) |}
           end
    end.
Proof.
  unfold run, subprocess_run.
  destruct (spawn_error w (c :: cs)) as [[]|]; [reflexivity..|].
  destruct (spawn w (c :: cs)) as [[[code o] e]|]; reflexivity.
Qed.

Lemma run_version_command (w : World) (tool : string) :
  (if String.eqb tool "bicep" then run w ["az"; "bicep"; "version"] true false
   else run w [tool; "--version"] true false)
  = match spawn_error w (version_command tool) with
    | Some f => Raise (launch_exn f)
    | None =>
        Ok match spawn w (version_command tool) with
           | Some (code, o, e) =>
               {| returncode := code; stdout := Some o; stderr := Some e |}
           | None =>
               {| returncode := 127; stdout := Some "";
                  stderr := Some ("Command not found: "
                                  +:+ (if String.eqb tool "bicep" then "az"
                                       else tool)) |}
           end
    end.
Proof.
  unfold version_command.
  destruct (String.eqb tool "bicep"); rewrite run_unchecked; reflexivity.
Qed.

(** One probe of [require_tools]. *)
Lemma probe_step (w : World) (tool : string) (results : gmap string bool) :
  (if String.eqb tool "bicep" then
     r ← run w ["az"; "bicep"; "version"] true false;
     mret (<[tool := returncode r =? 0]> results)
   else
     r ← run w [tool; "--version"] true false;
     mret (<[tool := returncode r =? 0]> results))
  = match spawn_error w (version_command tool) with
    | Some f => Raise (launch_exn f)
    | None => Ok (<[tool := available w tool]> results)
    end.
Proof.
  unfold available, version_command.
  destruct (String.eqb tool "bicep"); rewrite run_unchecked;
    match goal with |- context [spawn_error w ?c] =>
      destruct (spawn_error w c); [reflexivity|];
      destruct (spawn w c) as [[[code o] e]|]; reflexivity
    end.
Qed.

(** The loop of [require_tools] records the availability of each tool, as
    long as every version check can be launched or is missing. *)
Lemma require_tools_loop (w : World) (tools : list string)
    (results : gmap string bool) :
  (∀ tool, tool ∈ tools → spawn_error w (version_command tool) = None) →
  for_result tools
    (λ results tool,
       if String.eqb tool "bicep" then
         r ← run w ["az"; "bicep"; "version"] true false;
         mret (<[tool := returncode r =? 0]> results)
       else
         r ← run w [tool; "--version"] true false;
         mret (<[tool := returncode r =? 0]> results))
    results
  = Ok (fold_left (λ results tool, <[tool := available w tool]> results)
          tools results).
Proof.
  revert results. induction tools as [|tool rest IH]; intros results Hl;
    [reflexivity|].
  simpl. rewrite probe_step, (Hl tool (list_elem_of_here _ _)). simpl.
  apply IH. intros t Ht. apply Hl. by apply list_elem_of_further.
Qed.


Lemma recorded_lookup (w : World) (tools : list string)
    (results : gmap string bool) (tool : string) :
  fold_left (λ results tool, <[tool := available w tool]> results) tools results
    !! tool
  = if bool_decide (tool ∈ tools) then Some (available w tool)
    else results !! tool.
Proof.
  revert results. induction tools as [|t rest IH]; intros results; simpl.
  - reflexivity.
  - rewrite IH. destruct (decide (tool = t)) as [->|Hne].
    + rewrite lookup_insert_eq.
      rewrite (bool_decide_eq_true_2 (t ∈ t :: rest)) by apply list_elem_of_here.
      destruct (bool_decide (t ∈ rest)); reflexivity.
    + rewrite lookup_insert_ne by congruence.
      destruct (decide (tool ∈ rest)) as [Hin|Hnin].
      * rewrite (bool_decide_eq_true_2 _ Hin).
        rewrite bool_decide_eq_true_2; [reflexivity|].
        by apply list_elem_of_further.
      * rewrite (bool_decide_eq_false_2 _ Hnin).
        rewrite bool_decide_eq_false_2; [reflexivity|].
        intros Hin. apply elem_of_cons in Hin as [?|?]; congruence.
Qed.

Lemma require_tools_returns (w : World) (tools : option (list string)) :
  (∀ tool, tool ∈ default ["az"; "azd"; "bicep"] tools →
           spawn_error w (version_command tool) = None) →
  ∃ results, require_tools w tools = Ok results
             ∧ ∀ tool, tool ∈ default ["az"; "azd"; "bicep"] tools →
                       results !! tool = Some (available w tool).
Proof.
  intros Hl. unfold require_tools. rewrite require_tools_loop by exact Hl.
  eexists. split; [reflexivity|].
  intros tool Hin. rewrite recorded_lookup.
  rewrite bool_decide_eq_true_2 by assumption. reflexivity.
Qed.

(** [split] starts with the text before the first separator. *)
Lemma split_first_line (s : string) :
  index0 (split "010" s) = Ok (first_line s).
Proof.
  unfold first_line.
  induction s as [|c rest IH]; simpl; [reflexivity|].
  destruct (Ascii.eqb c "010"); [reflexivity|].
  destruct (split "010" rest) as [|l ls]; simpl in *; [discriminate|].
  injection IH as ->.
  destruct (cut "010" rest) as [[before after]|]; reflexivity.
Qed.

(** What [get_tool_version] returns, from the outcome of the version check:
    whatever [run] raises is caught. *)
Lemma get_tool_version_spec (w : World) (tool : string) :
  get_tool_version w tool
  = match spawn_error w (version_command tool) with
    | Some _ => None
    | None =>
        match spawn w (version_command tool) with
        | Some (code, o, _) =>
            if code =? 0 then
              if String.eqb (strip o) "" then None
              else Some (first_line (strip o))
            else None
        | None => None
        end
    end.
Proof.
  unfold get_tool_version. rewrite run_version_command.
  destruct (spawn_error w (version_command tool)); [reflexivity|]. simpl.
  destruct (spawn w (version_command tool)) as [[[code o] e]|]; simpl;
    [|reflexivity].
  destruct (code =? 0); [|reflexivity].
  destruct (String.eqb (strip o) ""); simpl; [reflexivity|].
  rewrite split_first_line. reflexivity.
Qed.




(** ** The dispatcher *)

Lemma for_io_returns {A S} (xs : list A) (body : S → A → IO S) (s : S) :
  (∀ s x, ∃ s', io_res (body s x) = Ok s') →
  ∃ s', io_res (for_io xs body s) = Ok s'.
Proof.
  intros Hbody. revert s. induction xs as [|x rest IH]; intros s; simpl.
  - eauto.
  - rewrite io_bind_res. destruct (Hbody s x) as [s' ->]. apply IH.
Qed.

Lemma bicep_validate_returns (w : World) (bicep_file : string) :
  launches w →
  ∃ ok, io_res (bicep_validate w bicep_file) = Ok ok.
Proof.
  intros Hl. unfold bicep_validate.
  destruct (negb (path_exists w bicep_file)).
  - rewrite io_bind_res. simpl. eauto.
  - rewrite io_bind_res. cbn [lift io_res]. rewrite run_unchecked, Hl.
    match goal with |- context [returncode ?r =? 0] =>
      destruct (returncode r =? 0)
    end.
    + rewrite io_bind_res. simpl. eauto.
    + rewrite !io_bind_res. simpl.
      match goal with |- context [if ?c then print _ else _] =>
        destruct c
      end; simpl; eauto.
Qed.

(** Validation reports its findings and returns, whatever it finds. *)
Lemma validate_bicep_files_returns (w : World) :
  launches w →
  ∃ ok, io_res (validate_bicep_files w) = Ok ok.
Proof.
  intros Hl. unfold validate_bicep_files. rewrite !io_bind_res. simpl.
  destruct (negb (path_exists w "infra")).
  - rewrite io_bind_res. simpl. eauto.
  - destruct (glob_bicep w) as [|f fs] eqn:Hg.
    + rewrite io_bind_res. simpl. eauto.
    + rewrite io_bind_res.
      match goal with |- context [io_res (for_io ?xs ?body ?s)] =>
        destruct (for_io_returns xs body s) as [ok Hok]
      end.
      * intros s x. rewrite io_bind_res.
        destruct (bicep_validate_returns w x Hl) as [b ->]. simpl. eauto.
      * rewrite Hok, io_bind_res. simpl. eauto.
Qed.

(** So does the tool check. *)
Lemma check_tools_returns (w : World) :
  launches w →
  ∃ ok, io_res (check_tools w) = Ok ok.
Proof.
  intros Hl. unfold check_tools. rewrite !io_bind_res. cbn [print io_res lift].
  destruct (require_tools_returns w
              (Some ["az"; "azd"; "bicep"; "docker"; "git"])
              (λ tool _, Hl (version_command tool)))
    as (results & Hr & _).
  rewrite Hr. simpl.
  match goal with |- context [if negb ?c then _ else mret true] =>
    destruct c
  end; simpl; eauto.
Qed.

(** Every path ends with status 0. *)
Lemma path_returns (w : World) (act : action) :
  launches w → io_res (path w act) = Ok 0.
Proof.
  intros Hl.
  destruct (check_tools_returns w Hl) as [t Ht].
  destruct (validate_bicep_files_returns w Hl) as [v Hv].
  destruct act; unfold path; rewrite ?io_bind_res; cbn [io_res print];
    rewrite ?Ht, ?Hv; reflexivity.
Qed.

(** Each path starts by announcing itself; reporting only prints nothing. *)
Lemma path_banner (w : World) (act : action) :
  head (io_log (path w act)) = banner act.
Proof. destruct act; reflexivity. Qed.

Lemma path_report_only_log (w : World) : io_log (path w ReportOnly) = [].
Proof. reflexivity. Qed.

(** The paths are told apart by what they print. *)
Lemma path_log_inj (w : World) (act act' : action) :
  io_log (path w act) = io_log (path w act') → act = act'.
Proof.
  intros H. apply (f_equal head) in H. rewrite !path_banner in H.
  destruct act, act'; try reflexivity; discriminate.
Qed.

(** The first flag set, in the order of the [if] statements of [main]. *)
Lemma selected_priority (config : OrchestratorConfig) :
  selected config
  = if truthy (dry_run config) then DryRun
    else if truthy (what_if config) then WhatIf
    else if apply config then Apply
    else if destroy config then Destroy
    else ReportOnly.
Proof.
  unfold selected, requested. simpl.
  destruct (truthy (dry_run config)); [reflexivity|].
  destruct (truthy (what_if config)); [reflexivity|].
  destruct (apply config); [reflexivity|].
  destruct (destroy config); reflexivity.
Qed.

(** [main] is: resolve, print, then the path of the selected action. *)
Lemma main_dispatch (w : World) (a : args.Namespace) :
  main w a
  = (config ← resolve_config w a;
     _ ← print_config config;
     path w (selected config)).
Proof.
  unfold main, mbind, IO_bind.
  destruct (io_res (resolve_config w a)) as [config|e]; [|reflexivity].
  destruct (io_res (print_config config)) as [[]|e]; [|reflexivity].
  rewrite selected_priority.
  destruct (truthy (dry_run config)); [reflexivity|].
  destruct (truthy (what_if config)); [reflexivity|].
  destruct (apply config); [reflexivity|].
  destruct (destroy config); reflexivity.
Qed.

(** Once the configuration is resolved and printed, [main] runs the path of
    the selected action and nothing else. *)
Lemma main_runs_selected (w : World) (a : args.Namespace)
    (config : OrchestratorConfig) :
  io_res (resolve_config w a) = Ok config →
  io_res (print_config config) = Ok tt →
  io_log (main w a)
  = io_log (resolve_config w a) ++ io_log (print_config config)
    ++ io_log (path w (selected config))
  ∧ io_res (main w a) = io_res (path w (selected config)).
Proof.
  intros Hr Hp. rewrite main_dispatch. split.
  - rewrite (io_bind_log_Ok _ _ config Hr).
    rewrite (io_bind_log_Ok _ _ tt Hp). reflexivity.
  - rewrite io_bind_res, Hr, io_bind_res, Hp. reflexivity.
Qed.

(** The exit status is 0 as soon as the configuration is resolved and
    printed and every command can be launched or is missing: no finding of
    the tool check or of the validation changes it. *)
Lemma main_returns_zero (w : World) (a : args.Namespace)
    (config : OrchestratorConfig) :
  launches w →
  io_res (resolve_config w a) = Ok config →
  io_res (print_config config) = Ok tt →
  io_res (main w a) = Ok 0 ∧ exit_status w a = 0.
Proof.
  intros Hl Hr Hp. destruct (main_runs_selected w a config Hr Hp) as [_ H].
  unfold exit_status. rewrite H, path_returns by exact Hl. auto.
Qed.

(** C5. Action selection in [main] is priority-ordered, first match wins:
    once the configuration is resolved and printed, [main] runs the dry-run
    path if [dry_run] holds, else the what-if path if [what_if] holds, else
    the apply path if [apply] holds, else the destroy path if [destroy]
    holds, else it only reports; whatever flags hold together, the output
    and the result of [main] are those of that one path, and of no other
    path. *)
Theorem main_action_priority (w : World) (a : args.Namespace)
    (config : OrchestratorConfig) :
  io_res (resolve_config w a) = Ok config →
  io_res (print_config config) = Ok tt →
  selected config
  = (if truthy (dry_run config) then DryRun
     else if truthy (what_if config) then WhatIf
     else if apply config then Apply
     else if destroy config then Destroy
     else ReportOnly)
  ∧ io_log (main w a)
    = io_log (resolve_config w a) ++ io_log (print_config config)
      ++ io_log (path w (selected config))
  ∧ io_res (main w a) = io_res (path w (selected config))
  ∧ (∀ act, io_log (path w act) = io_log (path w (selected config)) →
            act = selected config).
Proof.
  intros Hr Hp. split; [apply selected_priority|].
  destruct (main_runs_selected w a config Hr Hp) as [Hlog Hres].
  repeat split; [exact Hlog|exact Hres|].
  intros act. apply path_log_inj.
Qed.

(** All four flags on the command line: the dry-run path runs, and only
    it. *)
Lemma main_all_flags_runs_dry_run :
  io_res (resolve_config bare_world all_flags) = Ok all_flags_config
  ∧ selected all_flags_config = DryRun
  ∧ io_res (main bare_world all_flags) = io_res (path bare_world DryRun)
  ∧ (∀ act, io_log (path bare_world act) = io_log (path bare_world DryRun) →
            act = DryRun).
Proof.
  assert (Hr : io_res (resolve_config bare_world all_flags) = Ok all_flags_config)
    by (vm_compute; reflexivity).
  assert (Hp : io_res (print_config all_flags_config) = Ok tt)
    by (vm_compute; reflexivity).
  destruct (main_action_priority bare_world all_flags all_flags_config Hr Hp)
    as (Hsel & _ & Hres & Hone).
  split; [exact Hr|]. split; [exact Hsel|]. split; [exact Hres|exact Hone].
Defined.

(** C6 (defect in the code). [main] is meant to end with status 0 on every
    input.  A [config.yaml] whose [azure:] header has nothing under it
    parses to [{azure: None}]; with no subscription on the command line or
    in the environment, the resolver calls [.get] on that [None], the
    [AttributeError] reaches the top level, and the process ends with
    status 1. *)
Theorem main_null_section_exit_status :
  yaml_doc null_section_world = PDict [("azure", PNone)]
  ∧ io_res (main null_section_world no_args) = Raise AttributeError
  ∧ exit_status null_section_world no_args = 1.
Proof.
  split; [vm_compute; reflexivity|].
  split; vm_compute; reflexivity.
Qed.


(** ** Strings *)

Lemma append_cons (c : ascii) (s t : string) :
  String c s +:+ t = String c (s +:+ t).
Proof. reflexivity. Qed.

Lemma append_nil_l (s : string) : "" +:+ s = s.
Proof. reflexivity. Qed.

Lemma append_nil_r (s : string) : s +:+ "" = s.
Proof.
  induction s as [|c s IH]; [reflexivity|].
  rewrite append_cons, IH. reflexivity.
Qed.

Lemma append_assoc (s t u : string) : (s +:+ t) +:+ u = s +:+ (t +:+ u).
Proof.
  induction s as [|c s IH]; [reflexivity|].
  rewrite !append_cons, IH. reflexivity.
Qed.

Lemma rev_app_spec (s t : string) :
  String.rev_app s t = String.rev s +:+ t.
Proof.
  unfold String.rev. revert t.
  induction s as [|c s IH]; intros t; simpl; [reflexivity|].
  rewrite IH, (IH (String c "")), append_assoc. reflexivity.
Qed.

Lemma rev_cons (c : ascii) (s : string) :
  String.rev (String c s) = String.rev s +:+ String c "".
Proof. unfold String.rev at 1. simpl. apply rev_app_spec. Qed.

Lemma rev_append (s t : string) :
  String.rev (s +:+ t) = String.rev t +:+ String.rev s.
Proof.
  induction s as [|c s IH].
  - rewrite append_nil_l. change (String.rev "") with "".
    rewrite append_nil_r. reflexivity.
  - rewrite append_cons, !rev_cons, IH, append_assoc. reflexivity.
Qed.

Lemma rev_involutive (s : string) : String.rev (String.rev s) = s.
Proof.
  induction s as [|c s IH]; [reflexivity|].
  rewrite rev_cons, rev_append, IH. reflexivity.
Qed.

(** [cut] finds the first separator: the text before it has none, and the
    three pieces make up the string. *)
Lemma cut_Some (sep : ascii) (s before after : string) :
  cut sep s = Some (before, after) ↔
  s = before +:+ String sep after ∧ char_in sep before = false.
Proof.
  revert before. induction s as [|c s IH]; intros before; simpl.
  - split; [discriminate|]. intros [H _]. destruct before; discriminate.
  - destruct (Ascii.eqb_spec c sep) as [->|Hne].
    + split.
      * intros [= <- <-]. auto.
      * intros [H Hb]. destruct before as [|b before].
        -- rewrite append_nil_l in H. congruence.
        -- rewrite append_cons in H. injection H as <- _.
           simpl in Hb. rewrite Ascii.eqb_refl in Hb. discriminate.
    + destruct (cut sep s) as [[b a]|] eqn:E.
      * split.
        -- intros [= <- <-]. destruct (proj1 (IH b) eq_refl) as [-> Hb].
           rewrite append_cons. split; [reflexivity|].
           simpl. apply Ascii.eqb_neq in Hne. rewrite Hne. exact Hb.
        -- intros [H Hb]. destruct before as [|b' before].
           ++ rewrite append_nil_l in H. injection H as H _. contradiction.
           ++ rewrite append_cons in H. injection H as <- ->.
              simpl in Hb. apply orb_false_iff in Hb as [_ Hb].
              pose proof (proj2 (IH before) (conj eq_refl Hb)) as HH.
              congruence.
      * split; [discriminate|]. intros [H Hb].
        destruct before as [|b' before].
        -- rewrite append_nil_l in H. injection H as H _. contradiction.
        -- rewrite append_cons in H. injection H as <- ->.
           simpl in Hb. apply orb_false_iff in Hb as [_ Hb].
           pose proof (proj2 (IH before) (conj eq_refl Hb)) as HH.
           discriminate.
Qed.

Lemma cut_None (sep : ascii) (s : string) :
  cut sep s = None ↔ char_in sep s = false.
Proof.
  induction s as [|c s IH]; simpl; [tauto|].
  destruct (Ascii.eqb c sep); simpl.
  - split; discriminate.
  - destruct (cut sep s) as [[b a]|].
    + split; [discriminate|]. intros H. apply IH in H. discriminate.
    + tauto.
Qed.


Section stripping.
Variable p : ascii → bool.

Lemma all_chars_append (s t : string) :
  all_chars p (s +:+ t) = all_chars p s && all_chars p t.
Proof.
  induction s as [|c s IH]; [reflexivity|].
  rewrite append_cons. simpl. rewrite IH, andb_assoc. reflexivity.
Qed.

Lemma all_chars_rev (s : string) :
  all_chars p (String.rev s) = all_chars p s.
Proof.
  induction s as [|c s IH]; [reflexivity|].
  rewrite rev_cons, all_chars_append, IH. simpl.
  rewrite andb_true_r, andb_comm. reflexivity.
Qed.

Lemma first_char_append (s t : string) :
  s ≠ "" → first_char (s +:+ t) = first_char s.
Proof. destruct s; [contradiction|reflexivity]. Qed.

Lemma last_char_append (s : string) (c : ascii) (t : string) :
  last_char (s +:+ String c t) = last_char (String c t).
Proof.
  induction s as [|a s IH]; [reflexivity|].
  rewrite append_cons.
  destruct (s +:+ String c t) eqn:E.
  - destruct s; discriminate.
  - rewrite <- IH. reflexivity.
Qed.

Lemma last_char_rev (s : string) : last_char (String.rev s) = first_char s.
Proof.
  destruct s as [|c s]; [reflexivity|].
  rewrite rev_cons, last_char_append. reflexivity.
Qed.

Lemma first_char_rev (s : string) : first_char (String.rev s) = last_char s.
Proof. rewrite <- last_char_rev, rev_involutive. reflexivity. Qed.

(** Stripping on the left removes a run of [p] characters and stops at
    the first other one. *)
Lemma lstrip_by_split (s : string) :
  ∃ pre, s = pre +:+ lstrip_by p s ∧ all_chars p pre = true.
Proof.
  induction s as [|c s (pre & IH & Hpre)]; simpl.
  - exists "". auto.
  - destruct (p c) eqn:Hc.
    + exists (String c pre). rewrite append_cons, <- IH. simpl.
      rewrite Hc, Hpre. auto.
    + exists "". auto.
Qed.

Lemma lstrip_by_first (s : string) : fails_on p (first_char (lstrip_by p s)).
Proof.
  induction s as [|c s IH]; simpl; [exact I|].
  destruct (p c) eqn:Hc; [exact IH|exact Hc].
Qed.

Lemma lstrip_by_id (s : string) :
  fails_on p (first_char s) → lstrip_by p s = s.
Proof. destruct s as [|c s]; simpl; [reflexivity|]. intros ->. reflexivity. Qed.

Lemma rstrip_by_split (s : string) :
  ∃ post, s = rstrip_by p s +:+ post ∧ all_chars p post = true.
Proof.
  unfold rstrip_by.
  destruct (lstrip_by_split (String.rev s)) as (pre & H & Hpre).
  exists (String.rev pre). split.
  - rewrite <- rev_append, <- H, rev_involutive. reflexivity.
  - rewrite all_chars_rev. exact Hpre.
Qed.

Lemma rstrip_by_last (s : string) : fails_on p (last_char (rstrip_by p s)).
Proof. unfold rstrip_by. rewrite last_char_rev. apply lstrip_by_first. Qed.

Lemma rstrip_by_id (s : string) :
  fails_on p (last_char s) → rstrip_by p s = s.
Proof.
  intros H. unfold rstrip_by. rewrite lstrip_by_id.
  - apply rev_involutive.
  - rewrite first_char_rev. exact H.
Qed.

Lemma rstrip_by_first (s : string) :
  fails_on p (first_char s) → fails_on p (first_char (rstrip_by p s)).
Proof.
  intros H. destruct (rstrip_by_split s) as (post & Hs & _).
  destruct (rstrip_by p s) as [|c r] eqn:E; [exact I|].
  rewrite Hs in H. exact H.
Qed.

(** What is left has no [p] character at either end, and is a piece of
    the string between two runs of [p] characters. *)
Lemma strip_by_ends (s : string) :
  fails_on p (first_char (strip_by p s))
  ∧ fails_on p (last_char (strip_by p s)).
Proof.
  unfold strip_by. split.
  - apply rstrip_by_first, lstrip_by_first.
  - apply rstrip_by_last.
Qed.

Lemma strip_by_split (s : string) :
  ∃ pre post, s = pre +:+ strip_by p s +:+ post
              ∧ all_chars p pre = true ∧ all_chars p post = true.
Proof.
  unfold strip_by.
  destruct (lstrip_by_split s) as (pre & Hs & Hpre).
  destruct (rstrip_by_split (lstrip_by p s)) as (post & Hl & Hpost).
  exists pre, post. rewrite <- Hl. auto.
Qed.

Lemma strip_by_id (s : string) :
  fails_on p (first_char s) → fails_on p (last_char s) → strip_by p s = s.
Proof.
  intros Hf Hl. unfold strip_by. rewrite lstrip_by_id by exact Hf.
  apply rstrip_by_id, Hl.
Qed.
End stripping.

Lemma lstrip_is (s : string) : lstrip s = lstrip_by is_space s.
Proof.
  induction s as [|c s IH]; simpl; [reflexivity|].
  rewrite IH. reflexivity.
Qed.

Lemma strip_is (s : string) : strip s = strip_by is_space s.
Proof.
  unfold strip, rstrip, strip_by, rstrip_by. rewrite !lstrip_is. reflexivity.
Qed.

Lemma char_in_append (c : ascii) (s t : string) :
  char_in c (s +:+ t) = char_in c s || char_in c t.
Proof.
  induction s as [|a s IH]; [reflexivity|].
  rewrite append_cons. simpl. rewrite IH, orb_assoc. reflexivity.
Qed.

(** Stripping never adds a character. *)
Lemma char_in_strip (c : ascii) (s : string) :
  char_in c s = false → char_in c (strip s) = false.
Proof.
  intros H. rewrite strip_is.
  destruct (strip_by_split is_space s) as (pre & post & Hs & _).
  rewrite Hs, !char_in_append in H.
  apply orb_false_iff in H as [_ H]. apply orb_false_iff in H as [H _].
  exact H.
Qed.


(** ** The environment file *)

Lemma env_line_entry (source : string → string → string)
    (env_vars : gmap string string) (line : string) :
  env_line source env_vars line
  = match env_entry line with
    | Some (k, v) => <[k := source k v]> env_vars
    | None => env_vars
    end.
Proof.
  unfold env_line, env_entry.
  destruct (negb (String.eqb (strip line) "")
            && negb (startswith "#" (strip line))); [|reflexivity].
  destruct (cut "=" (strip line)) as [[key value]|]; reflexivity.
Qed.

(** The value the reader stores for a key whose text in the file is [v]. *)
Lemma load_env_file_fold (w : World) (env_path : string) :
  load_env_file w env_path
  = if path_exists w env_path then
      fold_left
        (env_line (λ k v, if HAS_DOTENV w then default v (getenv w k) else v))
        (read_lines w env_path) ∅
    else ∅.
Proof.
  unfold load_env_file.
  destruct (HAS_DOTENV w), (path_exists w env_path); reflexivity.
Qed.

Lemma env_fold_other (source : string → string → string) (lines : list string)
    (env_vars : gmap string string) (k : string) :
  (∀ l, l ∈ lines → env_key l ≠ Some k) →
  fold_left (env_line source) lines env_vars !! k = env_vars !! k.
Proof.
  revert env_vars. induction lines as [|l lines IH]; intros env_vars H; simpl;
    [reflexivity|].
  rewrite IH by (intros l' Hl'; apply H; by apply list_elem_of_further).
  rewrite env_line_entry.
  pose proof (H l (list_elem_of_here _ _)) as Hl. unfold env_key in Hl.
  destruct (env_entry l) as [[k' v']|]; [|reflexivity].
  apply lookup_insert_ne. simpl in Hl. congruence.
Qed.

Lemma env_fold_origin (source : string → string → string) (lines : list string)
    (env_vars : gmap string string) (k v : string) :
  fold_left (env_line source) lines env_vars !! k = Some v →
  env_vars !! k = Some v
  ∨ ∃ line text, line ∈ lines ∧ env_entry line = Some (k, text)
                 ∧ v = source k text.
Proof.
  revert env_vars. induction lines as [|l lines IH]; intros env_vars H;
    simpl in H; [auto|].
  apply IH in H as [H|(line & text & Hin & He & Hv)].
  - rewrite env_line_entry in H.
    destruct (env_entry l) as [[k' v']|] eqn:E; [|auto].
    destruct (decide (k' = k)) as [->|Hne].
    + rewrite lookup_insert_eq in H. injection H as <-.
      right. exists l, v'. split; [apply list_elem_of_here|auto].
    + rewrite lookup_insert_ne in H by exact Hne. auto.
  - right. exists line, text. split; [by apply list_elem_of_further|auto].
Qed.

(** X1. Without the [dotenv] package, a line of the environment file that
    is blank, a comment, or has no [=] changes nothing: the file reads the
    same without it. *)
Theorem load_env_file_skips_line (w : World) (env_path : string)
    (before after : list string) (line : string) :
  HAS_DOTENV w = false →
  strip line = "" ∨ startswith "#" (strip line) = true
  ∨ char_in "=" (strip line) = false →
  load_env_file (with_file env_path (before ++ line :: after) w) env_path
  = load_env_file (with_file env_path (before ++ after) w) env_path.
Proof.
  intros Hd H. rewrite !load_env_file_fold. simpl.
  rewrite String.eqb_refl, Hd. simpl. rewrite !fold_left_app. simpl.
  f_equal. rewrite env_line_entry.
  assert (E : env_entry line = None); [|rewrite E; reflexivity].
  unfold env_entry. destruct H as [->|[->|H]]; [reflexivity| |].
  - rewrite andb_false_r. reflexivity.
  - apply cut_None in H. rewrite H.
    destruct (_ && _); reflexivity.
Qed.

(** X2. For a key set by several lines the last line wins.  The value
    stored is the text after the first [=] of that line, stripped; with the
    [dotenv] package, the variable of that name in the process environment,
    when there is one, replaces it. *)
Theorem load_env_file_last_wins (w : World) (env_path : string)
    (before after : list string) (line k v : string) :
  path_exists w env_path = true →
  read_lines w env_path = before ++ line :: after →
  env_entry line = Some (k, v) →
  (∀ l, l ∈ after → env_key l ≠ Some k) →
  load_env_file w env_path !! k
  = Some (if HAS_DOTENV w then default v (getenv w k) else v).
Proof.
  intros Hp Hl He Hafter. rewrite load_env_file_fold, Hp, Hl.
  rewrite fold_left_app. simpl. rewrite env_fold_other by exact Hafter.
  rewrite env_line_entry, He. apply lookup_insert_eq.
Qed.

(** X3. Every entry of the mapping comes from a line of an existing file:
    without the file the mapping is empty, and every key it holds is the
    stripped text before the first [=] of some line that is neither blank
    nor a comment, so it has no [=] and no white space at either end. *)
Theorem load_env_file_origin (w : World) (env_path k v : string) :
  load_env_file w env_path !! k = Some v →
  path_exists w env_path = true
  ∧ (∃ line text, line ∈ read_lines w env_path
                  ∧ env_entry line = Some (k, text)
                  ∧ v = if HAS_DOTENV w then default text (getenv w k) else text)
  ∧ char_in "=" k = false
  ∧ fails_on is_space (first_char k) ∧ fails_on is_space (last_char k).
Proof.
  rewrite load_env_file_fold.
  destruct (path_exists w env_path); [|rewrite lookup_empty; discriminate].
  intros H. apply env_fold_origin in H as [H|(line & text & Hin & He & Hv)];
    [rewrite lookup_empty in H; discriminate|].
  split; [reflexivity|]. split; [eauto|].
  unfold env_entry in He.
  destruct (_ && _); [|discriminate].
  destruct (cut "=" (strip line)) as [[key value]|] eqn:Hc; [|discriminate].
  injection He as <- _.
  apply cut_Some in Hc as [_ Hk].
  split; [by apply char_in_strip|].
  rewrite strip_is. apply strip_by_ends.
Qed.

(** ** The resolver: when it returns, and the [--set] arguments *)

(** One [or] chain, evaluated: it reads the section only when neither the
    command line nor the environment gives the field. *)
Lemma scalar_chain_eval (cli envv : option string) (top : list (string * pyval))
    (section k : string) (dflt : pyval) :
  py_or (of_opt_str cli)
    (py_or (of_opt_str envv)
       (py_get (default (PDict []) (items_get top section)) k dflt))
  = if given cli envv || section_ok (PDict top) section
    then Ok (resolved_scalar cli envv (file_value (PDict top) section k) dflt)
    else Raise AttributeError.
Proof.
  unfold py_or, given, resolved_scalar, non_empty, file_value, section_ok,
    top_value.
  destruct cli as [c|]; simpl.
  - destruct (String.eqb c ""); simpl; [|reflexivity].
    destruct envv as [e|]; simpl.
    + destruct (String.eqb e ""); simpl; [|reflexivity].
      destruct (items_get top section) as [[]|]; reflexivity.
    + destruct (items_get top section) as [[]|]; reflexivity.
  - destruct envv as [e|]; simpl.
    + destruct (String.eqb e ""); simpl; [|reflexivity].
      destruct (items_get top section) as [[]|]; reflexivity.
    + destruct (items_get top section) as [[]|]; reflexivity.
Qed.

Lemma flag_chain_eval (cli : bool) (top : list (string * pyval)) (k : string) :
  py_or (PBool cli)
    (py_get (default (PDict []) (items_get top "deployment")) k (PBool false))
  = if cli || section_ok (PDict top) "deployment"
    then Ok (resolved_flag cli (file_value (PDict top) "deployment" k))
    else Raise AttributeError.
Proof.
  unfold py_or, resolved_flag, file_value, section_ok, top_value.
  destruct cli; simpl; [reflexivity|].
  destruct (items_get top "deployment") as [[]|]; reflexivity.
Qed.

(** [merge] either returns or raises [AttributeError], and which of the two
    is decided by [resolvable]. *)
Lemma merge_outcome (a : args.Namespace) (env_vars : gmap string string)
    (doc : pyval) :
  if resolvable a env_vars doc then is_ok (merge a env_vars doc) = true
  else merge a env_vars doc = Raise AttributeError.
Proof.
  unfold merge, resolvable. destruct doc as [| | | | |top]; try reflexivity.
  simpl. unfold env_get.
  rewrite !scalar_chain_eval, !flag_chain_eval.
  destruct (section_ok (PDict top) "azure");
    [rewrite !orb_true_r
    |rewrite !orb_false_r;
     destruct (given (args.subscription a) (env_vars !! "AZURE_SUBSCRIPTION_ID"));
       [|reflexivity];
     destruct (given (args.location a) (env_vars !! "AZURE_LOCATION"));
       [|reflexivity]];
    cbn [mbind result_bind orb andb];
    (destruct (section_ok (PDict top) "environment");
      [rewrite !orb_true_r
      |rewrite !orb_false_r;
       destruct (given (args.env a) (env_vars !! "AZURE_ENV_NAME"));
         [|reflexivity];
       destruct (given (args.profile a) (env_vars !! "PROFILE"));
         [|reflexivity]]);
    cbn [mbind result_bind orb andb];
    (destruct (section_ok (PDict top) "deployment");
      [rewrite !orb_true_r
      |rewrite !orb_false_r;
       destruct (args.dry_run a); [|reflexivity];
       destruct (args.what_if a); [|reflexivity]]);
    reflexivity.
Qed.

(** X5. Once the two files are read, the rest of [resolve_config] raises
    nothing but [AttributeError], and raises it exactly when the structured
    file is not a mapping or one of its sections is not a mapping while a
    field of that section is given neither on the command line nor in the
    environment file (for [deployment]: while [--dry-run] and [--what-if]
    are not both given). *)
Theorem resolve_config_body_outcome (a : args.Namespace)
    (env_vars : gmap string string) (doc : pyval) :
  is_ok (merge a env_vars doc) = resolvable a env_vars doc
  ∧ ∀ e, merge a env_vars doc = Raise e → e = AttributeError.
Proof.
  pose proof (merge_outcome a env_vars doc) as H.
  destruct (resolvable a env_vars doc).
  - split; [exact H|]. intros e He. rewrite He in H. discriminate.
  - rewrite H. split; [reflexivity|]. intros e [= <-]. reflexivity.
Qed.

Lemma merge_extra_params (a : args.Namespace) (env_vars : gmap string string)
    (doc : pyval) (cfg : OrchestratorConfig) :
  merge a env_vars doc = Ok cfg →
  extra_params cfg = fold_left set_param (default [] (args.set a)) ∅.
Proof.
  unfold merge. destruct doc as [| | | | |top]; try discriminate. simpl.
  intros H.
  apply result_bind_Ok in H as (v1 & _ & H).
  apply result_bind_Ok in H as (v2 & _ & H).
  apply result_bind_Ok in H as (v3 & _ & H).
  apply result_bind_Ok in H as (v4 & _ & H).
  apply result_bind_Ok in H as (v5 & _ & H).
  apply result_bind_Ok in H as (v6 & _ & H).
  injection H as <-. simpl.
  assert (Hx : ∀ c, extra_params (post_init c) = extra_params c).
  { intros c. unfold post_init. destruct (negb (truthy (resources c)));
      reflexivity. }
  rewrite Hx. simpl. destruct (args.set a) as [[|p ps]|]; reflexivity.
Qed.

Lemma set_param_key (extra : gmap string string) (param : string) :
  set_param extra param
  = match cut "=" param with
    | Some (k, v) => <[k := v]> extra
    | None => extra
    end.
Proof. reflexivity. Qed.

Lemma set_fold_other (params : list string) (extra : gmap string string)
    (k : string) :
  (∀ q, q ∈ params → set_key q ≠ Some k) →
  fold_left set_param params extra !! k = extra !! k.
Proof.
  revert extra. induction params as [|q qs IH]; intros extra H; simpl;
    [reflexivity|].
  rewrite IH by (intros q' Hq'; apply H; by apply list_elem_of_further).
  pose proof (H q (list_elem_of_here _ _)) as Hq. unfold set_key in Hq.
  unfold set_param. destruct (cut "=" q) as [[k' v']|]; [|reflexivity].
  apply lookup_insert_ne. simpl in Hq. congruence.
Qed.

Lemma set_fold_origin (params : list string) (extra : gmap string string)
    (k v : string) :
  fold_left set_param params extra !! k = Some v →
  extra !! k = Some v ∨ ∃ q, q ∈ params ∧ cut "=" q = Some (k, v).
Proof.
  revert extra. induction params as [|q qs IH]; intros extra H; simpl in H;
    [auto|].
  apply IH in H as [H|(q' & Hin & Hq')].
  - unfold set_param in H. destruct (cut "=" q) as [[k' v']|] eqn:E; [|auto].
    destruct (decide (k' = k)) as [->|Hne].
    + rewrite lookup_insert_eq in H. injection H as <-.
      right. exists q. split; [apply list_elem_of_here|exact E].
    + rewrite lookup_insert_ne in H by exact Hne. auto.
  - right. exists q'. split; [by apply list_elem_of_further|exact Hq'].
Qed.

(** X6. [--set KEY=VALUE] is split at its first [=], so the value may hold
    further [=] signs, and of several arguments for one key the last wins:
    the configuration maps the key to the value of the last argument that
    sets it. *)
Theorem resolve_config_set_last_wins (w : World) (a : args.Namespace)
    (cfg : OrchestratorConfig) (before after : list string) (k v : string) :
  io_res (resolve_config w a) = Ok cfg →
  args.set a = Some (before ++ (k +:+ "=" +:+ v) :: after) →
  char_in "=" k = false →
  (∀ q, q ∈ after → set_key q ≠ Some k) →
  extra_params cfg !! k = Some v.
Proof.
  rewrite resolve_config_res. intros H Hset Hk Hafter.
  rewrite (merge_extra_params _ _ _ _ H), Hset. simpl.
  rewrite fold_left_app. simpl. rewrite set_fold_other by exact Hafter.
  unfold set_param.
  rewrite (proj2 (cut_Some "=" (k +:+ "=" +:+ v) k v) (conj eq_refl Hk)).
  apply lookup_insert_eq.
Qed.

(** X7. The extra parameters come from [--set] alone: every entry is
    [KEY=VALUE] for one of the arguments, cut at its first [=]; arguments
    without [=] leave no trace, and without [--set] there is no extra
    parameter, whatever the environment file and the structured file say. *)
Theorem resolve_config_extra_params_origin (w : World) (a : args.Namespace)
    (cfg : OrchestratorConfig) (k v : string) :
  io_res (resolve_config w a) = Ok cfg →
  extra_params cfg !! k = Some v →
  ∃ params, args.set a = Some params
            ∧ (k +:+ "=" +:+ v) ∈ params
            ∧ char_in "=" k = false.
Proof.
  rewrite resolve_config_res. intros H Hk.
  rewrite (merge_extra_params _ _ _ _ H) in Hk.
  apply set_fold_origin in Hk as [Hk|(q & Hin & Hq)];
    [rewrite lookup_empty in Hk; discriminate|].
  apply cut_Some in Hq as [-> Hc].
  destruct (args.set a) as [params|]; simpl in Hin.
  - exists params. auto.
  - apply elem_of_nil in Hin. contradiction.
Qed.


(** ** Running commands *)

(** X8. [run] catches two exceptions of [subprocess.run] and lets every
    other one through.  So it raises exactly when [subprocess.run] fails in
    another way than by a missing executable, with that failure, or when
    [check] is asked for and the command ends with a status other than 0,
    and then it raises [CalledProcessError] with that status.  A command
    that is not on the search path is reported as status 127 with empty
    output, [check] or not. *)
Theorem run_raises_iff (w : World) (c : string) (cs : list string)
    (capture check : bool) :
  (∀ e, run w (c :: cs) capture check = Raise e ↔
        (∃ f, spawn_error w (c :: cs) = Some f ∧ e = launch_exn f)
        ∨ (spawn_error w (c :: cs) = None
           ∧ check = true
           ∧ ∃ code o err, spawn w (c :: cs) = Some (code, o, err) ∧ code ≠ 0
               ∧ e = CalledProcessError code
                       (if capture then Some o else None)
                       (if capture then Some err else None)))
  ∧ (spawn_error w (c :: cs) = None → spawn w (c :: cs) = None →
     run w (c :: cs) capture check
     = Ok {| returncode := 127; stdout := Some "";
             stderr := Some ("Command not found: " +:+ c) |}).
Proof.
  unfold run, subprocess_run.
  destruct (spawn_error w (c :: cs)) as [f|].
  - split; [|discriminate]. intros e.
    assert (Hf : match launch_exn f with
                 | FileNotFoundError => False
                 | CalledProcessError _ _ _ => False
                 | _ => True
                 end) by (destruct f; exact I).
    destruct (launch_exn f) eqn:Ef; try contradiction.
    all: split;
      [intros [= <-]; left; exists f; auto
      |intros [(f' & [= <-] & ->)|(H & _)]; [congruence|discriminate]].
  - destruct (spawn w (c :: cs)) as [[[code o] err]|]; simpl.
    + split; [|discriminate]. intros e.
      destruct check; simpl.
      * destruct (Z.eqb_spec code 0) as [->|Hne]; simpl.
        -- split; [discriminate|].
           intros [(f & H & _)|(_ & _ & code' & o' & err' & [= <- _ _] & H & _)];
             [discriminate|contradiction].
        -- split.
           ++ intros [= <-]. right. split; [reflexivity|].
              split; [reflexivity|]. exists code, o, err. auto.
           ++ intros [(f & H & _)
                     |(_ & _ & code' & o' & err' & [= <- <- <-] & _ & ->)];
                [discriminate|reflexivity].
      * split; [discriminate|].
        intros [(f & H & _)|(_ & H & _)]; discriminate.
    + split; [|reflexivity]. intros e. split; [discriminate|].
      intros [(f & H & _)|(_ & _ & code & o & err & H & _)]; discriminate.
Qed.

(** ** Tool inspector *)

(** X9. As long as every version check [require_tools] launches runs to its
    end or has no executable on the search path, the mapping it returns has
    an entry for every tool asked about and for no other name. *)
Theorem require_tools_entries (w : World) (tools : option (list string)) :
  (∀ tool, tool ∈ default ["az"; "azd"; "bicep"] tools →
           spawn_error w (version_command tool) = None) →
  ∃ results, require_tools w tools = Ok results
             ∧ ∀ tool, is_Some (results !! tool)
                       ↔ tool ∈ default ["az"; "azd"; "bicep"] tools.
Proof.
  intros Hl. unfold require_tools. rewrite require_tools_loop by exact Hl.
  eexists. split; [reflexivity|]. intros tool. rewrite recorded_lookup.
  destruct (decide (tool ∈ default ["az"; "azd"; "bicep"] tools)) as [Hin|Hnin].
  - rewrite bool_decide_eq_true_2 by exact Hin. split; eauto.
  - rewrite bool_decide_eq_false_2 by exact Hnin. rewrite lookup_empty.
    split; [intros [? ?]; discriminate|contradiction].
Qed.

Lemma first_line_no_newline (s : string) : char_in "010" (first_line s) = false.
Proof.
  unfold first_line. destruct (cut "010" s) as [[b a]|] eqn:E.
  - apply cut_Some in E as [_ H]. exact H.
  - apply cut_None in E. exact E.
Qed.

Lemma first_line_first_char (s : string) :
  fails_on is_space (first_char s) → s ≠ "" →
  first_char (first_line s) = first_char s.
Proof.
  destruct s as [|c s]; [contradiction|]. simpl. intros Hc _.
  unfold first_line. simpl.
  destruct (Ascii.eqb_spec c "010") as [->|_]; [discriminate|].
  destruct (cut "010" s) as [[b a]|]; reflexivity.
Qed.

(** X10. A version that [get_tool_version] returns belongs to an available
    tool, is not empty, is a single line and starts with a character that is
    not white space. *)
Theorem get_tool_version_shape (w : World) (tool v : string) :
  get_tool_version w tool = Some v →
  available w tool = true
  ∧ v ≠ ""
  ∧ char_in "010" v = false
  ∧ ∃ c, first_char v = Some c ∧ is_space c = false.
Proof.
  rewrite get_tool_version_spec. unfold available.
  destruct (spawn_error w (version_command tool)); [discriminate|].
  destruct (spawn w (version_command tool)) as [[[code o] err]|]; [|discriminate].
  destruct (code =? 0); [|discriminate].
  destruct (String.eqb_spec (strip o) "") as [|Hne]; [discriminate|].
  intros [= <-]. split; [reflexivity|].
  assert (Hf : fails_on is_space (first_char (strip o)))
    by (rewrite strip_is; apply strip_by_ends).
  pose proof (first_line_first_char (strip o) Hf Hne) as H1.
  destruct (strip o) as [|c s] eqn:E; [contradiction|].
  simpl in Hf, H1.
  split; [|split; [apply first_line_no_newline|eauto]].
  intros H0. rewrite H0 in H1. discriminate.
Qed.

(** ** [azd] environments *)

Lemma with_env_name_cons (c : string) (cs : list string)
    (env_name : option string) :
  ∃ cs', with_env_name (c :: cs) env_name = c :: cs'.
Proof.
  unfold with_env_name. destruct env_name as [e|]; [|eauto].
  destruct (truthy (PStr e)); simpl; eauto.
Qed.

(** X11. [azd_env_set] says whether the [azd] command ended with status 0,
    and says no when [azd] is not installed; any other failure of launching
    the command is not caught and stops it.  An empty environment name
    selects no environment, like no name at all. *)
Theorem azd_env_set_outcome (w : World) (key value : string)
    (env_name : option string) :
  azd_env_set w key value env_name
  = match spawn_error w
            (with_env_name ["azd"; "env"; "set"; key; value] env_name) with
    | Some f => Raise (launch_exn f)
    | None =>
        Ok match spawn w
                   (with_env_name ["azd"; "env"; "set"; key; value] env_name)
           with
           | Some (code, _, _) => code =? 0
           | None => false
           end
    end
  ∧ azd_env_set w key value (Some "") = azd_env_set w key value None
  ∧ ∀ e, e ≠ "" →
         with_env_name ["azd"; "env"; "set"; key; value] (Some e)
         = ["azd"; "env"; "set"; key; value; "-e"; e].
Proof.
  split; [|split; [reflexivity|]].
  - unfold azd_env_set.
    destruct (with_env_name_cons "azd" ["env"; "set"; key; value] env_name)
      as [cs ->].
    rewrite run_unchecked.
    destruct (spawn_error w ("azd" :: cs)); [reflexivity|]. simpl.
    destruct (spawn w ("azd" :: cs)) as [[[code o] err]|]; reflexivity.
  - intros e He. unfold with_env_name. simpl.
    destruct (String.eqb_spec e ""); [contradiction|reflexivity].
Qed.

(** X12. When the [azd] command cannot be launched, for another reason than
    a missing executable, [azd_env_get_values] raises what [subprocess.run]
    raised.  Otherwise it returns a mapping, which is empty when [azd] is
    not installed or ends with a status other than 0. *)
Theorem azd_env_get_values_failure (w : World) (env_name : option string) :
  match spawn_error w (with_env_name ["azd"; "env"; "get-values"] env_name) with
  | Some f => azd_env_get_values w env_name = Raise (launch_exn f)
  | None =>
      ∃ env_vars, azd_env_get_values w env_name = Ok env_vars
        ∧ (spawn w (with_env_name ["azd"; "env"; "get-values"] env_name) = None →
           env_vars = ∅)
        ∧ (∀ code o err,
             spawn w (with_env_name ["azd"; "env"; "get-values"] env_name)
               = Some (code, o, err) → code ≠ 0 → env_vars = ∅)
  end.
Proof.
  unfold azd_env_get_values.
  destruct (with_env_name_cons "azd" ["env"; "get-values"] env_name) as [cs ->].
  rewrite run_unchecked.
  destruct (spawn_error w ("azd" :: cs)); [reflexivity|]. simpl.
  destruct (spawn w ("azd" :: cs)) as [[[code o] err]|]; simpl.
  - destruct (Z.eqb_spec code 0) as [->|Hne]; simpl.
    + eexists. split; [reflexivity|]. split; [discriminate|].
      intros code' o' err' [= <- _ _] H. contradiction.
    + eexists. split; [reflexivity|]. auto.
  - eexists. split; [reflexivity|]. auto.
Qed.

Lemma unquote (q : ascii) (v : string) :
  first_char v ≠ Some q → last_char v ≠ Some q →
  strip_by (λ c, Ascii.eqb c q) (String q (v +:+ String q "")) = v.
Proof.
  intros Hf Hl. unfold strip_by. simpl. rewrite Ascii.eqb_refl.
  assert (Hv : lstrip_by (λ c, Ascii.eqb c q) (v +:+ String q "")
               = if String.eqb v "" then "" else v +:+ String q "").
  { destruct v as [|c v]; simpl; [rewrite Ascii.eqb_refl; reflexivity|].
    destruct (Ascii.eqb_spec c q) as [->|_]; [|reflexivity].
    simpl in Hf. congruence. }
  rewrite Hv. destruct (String.eqb_spec v "") as [->|Hne]; [reflexivity|].
  unfold rstrip_by. rewrite rev_append. simpl.
  rewrite Ascii.eqb_refl, append_nil_l.
  rewrite lstrip_by_id; [apply rev_involutive|].
  rewrite first_char_rev.
  destruct (last_char v) as [c|]; simpl; [|exact I].
  destruct (Ascii.eqb_spec c q) as [->|_]; [congruence|reflexivity].
Qed.

Lemma strip_by_unquoted (q : ascii) (v : string) :
  first_char v ≠ Some q → last_char v ≠ Some q →
  strip_by (λ c, Ascii.eqb c q) v = v.
Proof.
  intros Hf Hl. apply strip_by_id.
  - destruct (first_char v) as [c|]; simpl; [|exact I].
    destruct (Ascii.eqb_spec c q) as [->|_]; [congruence|reflexivity].
  - destruct (last_char v) as [c|]; simpl; [|exact I].
    destruct (Ascii.eqb_spec c q) as [->|_]; [congruence|reflexivity].
Qed.


Lemma last_char_cons (c : ascii) (s : string) :
  last_char (String c s) = Some (default c (last_char s)).
Proof.
  revert c. induction s as [|a s IH]; intros c; [reflexivity|].
  change (last_char (String c (String a s))) with (last_char (String a s)).
  rewrite IH. destruct s; reflexivity.
Qed.

Lemma azd_value_line_sets (env_vars : gmap string string) (k v value : string) :
  char_in "=" k = false →
  fails_on is_space (first_char k) →
  quoted v value → bare v →
  azd_value_line env_vars (k +:+ "=" +:+ value) = <[k := v]> env_vars.
Proof.
  intros Hk Hkf Hq (Hfd & Hfs & Hld & Hls & Hsp).
  unfold azd_value_line.
  assert (Hstrip : strip (k +:+ "=" +:+ value) = k +:+ "=" +:+ value).
  { rewrite strip_is. apply strip_by_id.
    - destruct k; [reflexivity|exact Hkf].
    - change (k +:+ "=" +:+ value) with (k +:+ String "=" value).
      rewrite last_char_append, last_char_cons.
      destruct Hq as [-> | [-> | ->]].
      + destruct (last_char v); [exact Hsp|reflexivity].
      + rewrite last_char_cons, last_char_append. reflexivity.
      + rewrite last_char_cons, last_char_append. reflexivity. }
  rewrite Hstrip.
  assert (Hne : String.eqb (k +:+ "=" +:+ value) "" = false)
    by (destruct k; reflexivity).
  rewrite Hne. simpl.
  rewrite (proj2 (cut_Some "=" (k +:+ "=" +:+ value) k value) (conj eq_refl Hk)).
  f_equal. destruct Hq as [-> | [-> | ->]].
  - rewrite (strip_by_unquoted dquote) by assumption.
    apply (strip_by_unquoted squote); assumption.
  - rewrite (unquote dquote) by assumption.
    apply (strip_by_unquoted squote); assumption.
  - rewrite (strip_by_unquoted dquote).
    + apply (unquote squote); assumption.
    + discriminate.
    + rewrite last_char_cons, last_char_append. discriminate.
Qed.

Lemma azd_fold_other (lines : list string) (env_vars : gmap string string)
    (k : string) :
  (∀ l, l ∈ lines → azd_key l ≠ Some k) →
  fold_left azd_value_line lines env_vars !! k = env_vars !! k.
Proof.
  revert env_vars. induction lines as [|l lines IH]; intros env_vars H; simpl;
    [reflexivity|].
  rewrite IH by (intros l' Hl'; apply H; by apply list_elem_of_further).
  pose proof (H l (list_elem_of_here _ _)) as Hl.
  unfold azd_key in Hl. unfold azd_value_line.
  destruct (negb (String.eqb (strip l) "")); [|reflexivity].
  destruct (cut "=" (strip l)) as [[key value]|]; [|reflexivity].
  apply lookup_insert_ne. simpl in Hl. congruence.
Qed.

(** X13. When [azd] succeeds and a line of its output is [KEY=VALUE], with
    the value bare or between a pair of double or single quotes, and no
    later line sets the key, the mapping returned has the key with the
    value, quotes removed.  The lines are the pieces of the output between
    newlines, so the output may end with a newline. *)
Theorem azd_env_get_values_last_wins (w : World) (env_name : option string)
    (out err : string) (before after : list string) (k v value : string) :
  spawn_error w (with_env_name ["azd"; "env"; "get-values"] env_name) = None →
  spawn w (with_env_name ["azd"; "env"; "get-values"] env_name)
    = Some (0, out, err) →
  split "010" out = before ++ (k +:+ "=" +:+ value) :: after →
  (∀ l, l ∈ after → azd_key l ≠ Some k) →
  char_in "=" k = false →
  fails_on is_space (first_char k) →
  quoted v value → bare v →
  ∃ env_vars, azd_env_get_values w env_name = Ok env_vars
              ∧ env_vars !! k = Some v.
Proof.
  intros He Hs Hsplit Hafter Hk Hkf Hq Hb. unfold azd_env_get_values.
  destruct (with_env_name_cons "azd" ["env"; "get-values"] env_name)
    as [cs Hc].
  rewrite Hc in *. rewrite run_unchecked, He, Hs. simpl.
  eexists. split; [reflexivity|].
  rewrite Hsplit, fold_left_app. simpl.
  rewrite azd_fold_other by exact Hafter.
  rewrite (azd_value_line_sets _ k v value) by assumption.
  apply lookup_insert_eq.
Qed.

(** ** Infrastructure files *)

(** One validation, in full: what it prints and what it returns. *)
Lemma bicep_validate_eval (w : World) (bicep_file : string) :
  bicep_validate w bicep_file
  = if path_exists w bicep_file then
      match spawn_error w
              ["az"; "bicep"; "build"; "--file"; bicep_file; "--stdout"] with
      | Some f => mkIO [] (Raise (launch_exn f))
      | None =>
          match spawn w
                  ["az"; "bicep"; "build"; "--file"; bicep_file; "--stdout"] with
          | Some (code, _, err) =>
              if code =? 0 then
                mkIO [Fmt "✓ Bicep file is valid: {}" [PStr bicep_file]]
                  (Ok true)
              else
                mkIO (Fmt "✗ Bicep validation failed: {}" [PStr bicep_file]
                      :: if String.eqb err "" then []
                         else [Fmt "Error: {}" [PStr err]])
                  (Ok false)
          | None =>
              mkIO [Fmt "✗ Bicep validation failed: {}" [PStr bicep_file];
                    Fmt "Error: {}" [PStr "Command not found: az"]]
                (Ok false)
          end
      end
    else mkIO [Fmt "Error: Bicep file not found: {}" [PStr bicep_file]]
           (Ok false).
Proof.
  unfold bicep_validate.
  destruct (path_exists w bicep_file); cbn [negb]; [|reflexivity].
  rewrite run_unchecked.
  destruct (spawn_error w _); [reflexivity|].
  destruct (spawn w _) as [[[code o] err]|]; [|reflexivity].
  unfold mbind, IO_bind, lift, print.
  cbn [io_res io_log returncode stderr app].
  destruct (code =? 0); [reflexivity|].
  cbn [io_res io_log app of_opt_str truthy negb].
  destruct (String.eqb err ""); reflexivity.
Qed.

Lemma bicep_validate_res (w : World) (bicep_file : string) :
  spawn_error w ["az"; "bicep"; "build"; "--file"; bicep_file; "--stdout"]
    = None →
  io_res (bicep_validate w bicep_file) = Ok (valid_bicep w bicep_file).
Proof.
  intros Hl. rewrite bicep_validate_eval, Hl. unfold valid_bicep, builds.
  destruct (path_exists w bicep_file); [|reflexivity].
  destruct (spawn w _) as [[[code o] err]|]; [|reflexivity].
  destruct (code =? 0); reflexivity.
Qed.

(** X14. As long as the build command runs to its end or [az] is not on the
    search path, [bicep_validate] says yes exactly when the file exists and
    its build ends with status 0.  For a file that does not exist it prints
    one line and says no, without a look at the tools; for one that exists,
    any other failure of launching the build is not caught and stops it
    before it prints anything. *)
Theorem bicep_validate_outcome (w : World) (bicep_file : string) :
  (spawn_error w ["az"; "bicep"; "build"; "--file"; bicep_file; "--stdout"]
     = None →
   io_res (bicep_validate w bicep_file)
   = Ok (path_exists w bicep_file && builds w bicep_file))
  ∧ (path_exists w bicep_file = false →
     bicep_validate w bicep_file
     = mkIO [Fmt "Error: Bicep file not found: {}" [PStr bicep_file]]
         (Ok false))
  ∧ (path_exists w bicep_file = true →
     ∀ f, spawn_error w
            ["az"; "bicep"; "build"; "--file"; bicep_file; "--stdout"]
          = Some f →
          bicep_validate w bicep_file = mkIO [] (Raise (launch_exn f))).
Proof.
  split; [apply bicep_validate_res|]. split.
  - intros Hp. rewrite bicep_validate_eval, Hp. reflexivity.
  - intros Hp f Hf. rewrite bicep_validate_eval, Hp, Hf. reflexivity.
Qed.

(** The loop of [validate_bicep_files]: every file is validated in turn,
    and the answer is yes when every one of them is valid. *)
Lemma validate_loop (w : World) (bicep_files : list string) (acc : bool) :
  (∀ f, f ∈ bicep_files →
        spawn_error w ["az"; "bicep"; "build"; "--file"; f; "--stdout"]
        = None) →
  for_io bicep_files
    (λ all_valid bicep_file,
       ok ← bicep_validate w bicep_file;
       mret (if negb ok then false else all_valid))
    acc
  = mkIO (concat (map (λ f, io_log (bicep_validate w f)) bicep_files))
      (Ok (acc && forallb (valid_bicep w) bicep_files)).
Proof.
  revert acc. induction bicep_files as [|f fs IH]; intros acc Hl.
  - simpl. rewrite andb_true_r. reflexivity.
  - cbn [for_io map concat forallb].
    pose proof (bicep_validate_res w f (Hl f (list_elem_of_here _ _))) as Hf.
    unfold mbind at 1. unfold IO_bind at 1.
    rewrite io_bind_res, Hf. cbn [mret IO_ret io_res].
    rewrite (io_bind_log_Ok _ _ _ Hf). cbn [mret IO_ret io_log].
    rewrite IH by (intros f' Hf'; apply Hl; by apply list_elem_of_further).
    cbn [io_log io_res]. rewrite app_nil_r.
    destruct (valid_bicep w f), acc; reflexivity.
Qed.

(** X15. As long as every build the validation launches runs to its end or
    [az] is not on the search path, [validate_bicep_files] says yes exactly
    when the [infra] directory exists, holds at least one Bicep file, and
    every one of its Bicep files exists and builds.  A file that fails does
    not stop the others: when there are files, what is printed is the
    heading, then what the validation of each file prints, file after file,
    then the closing rule. *)
Theorem validate_bicep_files_outcome (w : World) :
  (∀ f, f ∈ glob_bicep w →
        spawn_error w ["az"; "bicep"; "build"; "--file"; f; "--stdout"]
        = None) →
  io_res (validate_bicep_files w)
  = Ok (path_exists w "infra"
        && bool_decide (glob_bicep w ≠ [])
        && forallb (λ f, path_exists w f && builds w f) (glob_bicep w))
  ∧ (path_exists w "infra" = true → glob_bicep w ≠ [] →
     io_log (validate_bicep_files w)
     = [Text (nl +:+ rule); Text "BICEP VALIDATION"; Text (rule +:+ nl)]
       ++ concat (map (λ f, io_log (bicep_validate w f)) (glob_bicep w))
       ++ [Text (nl +:+ rule +:+ nl)]).
Proof.
  intros Hl. unfold validate_bicep_files.
  destruct (path_exists w "infra"); cbn [negb andb].
  - destruct (glob_bicep w) as [|f fs] eqn:Hg.
    + split; [reflexivity|]. intros _ H. contradiction.
    + rewrite validate_loop by exact Hl.
      rewrite bool_decide_eq_true_2 by discriminate.
      split; [reflexivity|]. intros _ _. reflexivity.
  - split; [reflexivity|]. discriminate.
Qed.

(** X16. As long as the version checks of the five tools run to their end or
    have no executable on the search path, [check_tools] says yes exactly
    when [az], [azd] and [bicep] are all available: [docker] and [git] are
    probed and reported, but do not count. *)
Theorem check_tools_outcome (w : World) :
  (∀ tool, tool ∈ ["az"; "azd"; "bicep"; "docker"; "git"] →
           spawn_error w (version_command tool) = None) →
  io_res (check_tools w)
  = Ok (available w "az" && available w "azd" && available w "bicep").
Proof.
  intros Hc. unfold check_tools. rewrite !io_bind_res. simpl.
  destruct (require_tools_returns w
              (Some ["az"; "azd"; "bicep"; "docker"; "git"]) Hc)
    as (results & Hr & Hl).
  rewrite Hr.
  rewrite (Hl "az"), (Hl "azd"), (Hl "bicep"); simpl;
    [|repeat (first [apply list_elem_of_here|apply list_elem_of_further])..].
  destruct (available w "az"), (available w "azd"), (available w "bicep");
    reflexivity.
Qed.


(** ** The parameter builder: names *)

Lemma char_lower_underscore (c : ascii) :
  char_lower c = "_"%char → c = "_"%char.
Proof.
  destruct c as [[] [] [] [] [] [] [] []]; vm_compute; intros H;
    first [reflexivity|discriminate H].
Qed.

Lemma char_upper_underscore (c : ascii) :
  char_upper c = "_"%char → c = "_"%char.
Proof.
  destruct c as [[] [] [] [] [] [] [] []]; vm_compute; intros H;
    first [reflexivity|discriminate H].
Qed.

Lemma char_lower_not_upper (c : ascii) : is_upper (char_lower c) = false.
Proof. destruct c as [[] [] [] [] [] [] [] []]; vm_compute; reflexivity. Qed.

Lemma str_lower_underscore (s : string) :
  char_in "_" s = false → char_in "_" (str_lower s) = false.
Proof.
  induction s as [|c s IH]; simpl; [reflexivity|].
  intros H. apply orb_false_iff in H as [Hc Hs].
  rewrite (IH Hs), orb_false_r.
  apply Ascii.eqb_neq. apply Ascii.eqb_neq in Hc.
  intros Hl. apply Hc, char_lower_underscore, Hl.
Qed.

Lemma capitalize_underscore (s : string) :
  char_in "_" s = false → char_in "_" (capitalize s) = false.
Proof.
  destruct s as [|c s]; simpl; [reflexivity|].
  intros H. apply orb_false_iff in H as [Hc Hs].
  rewrite (str_lower_underscore s Hs), orb_false_r.
  apply Ascii.eqb_neq. apply Ascii.eqb_neq in Hc.
  intros Hl. apply Hc, char_upper_underscore, Hl.
Qed.

(** No word of [split] holds the separator. *)
Lemma split_words (sep : ascii) (s : string) :
  Forall (λ word, char_in sep word = false) (split sep s).
Proof.
  induction s as [|c s IH]; simpl.
  - constructor; [reflexivity|constructor].
  - destruct (Ascii.eqb c sep) eqn:Hc.
    + constructor; [reflexivity|exact IH].
    + destruct (split sep s) as [|word words].
      * constructor; [simpl; rewrite Hc; reflexivity|constructor].
      * inversion IH as [|? ? Hw Hws]; subst.
        constructor; [simpl; rewrite Hc, Hw; reflexivity|exact Hws].
Qed.

Lemma join_underscore (words : list string) :
  Forall (λ word, char_in "_" word = false) words →
  char_in "_" (join (map capitalize words)) = false.
Proof.
  induction 1 as [|word words Hw _ IH]; [reflexivity|].
  simpl. change (fold_right String.append "" (map capitalize words))
    with (join (map capitalize words)).
  rewrite char_in_append, IH, (capitalize_underscore _ Hw). reflexivity.
Qed.

(** X17. The parameter name made from a resource name has no underscore left
    and does not start with an upper-case letter; there is none exactly for
    the names made of underscores alone. *)
Theorem camel_shape (resource_name : string) :
  match camel resource_name with
  | Some p =>
      only_underscores resource_name = false
      ∧ char_in "_" p = false
      ∧ ∃ c rest, p = String c rest ∧ is_upper c = false
  | None => only_underscores resource_name = true
  end.
Proof.
  pose proof (camel_None resource_name) as Hnone.
  pose proof (join_underscore _ (split_words "_" resource_name)) as Hj.
  unfold camel in *.
  destruct (join (map capitalize (split "_" resource_name))) as [|c rest].
  - apply Hnone. reflexivity.
  - split.
    + destruct (only_underscores resource_name); [|reflexivity].
      discriminate (proj2 Hnone eq_refl).
    + simpl in Hj. apply orb_false_iff in Hj as [Hc Hrest].
      split.
      * simpl. rewrite Hrest, orb_false_r.
        apply Ascii.eqb_neq. apply Ascii.eqb_neq in Hc.
        intros Hl. apply Hc, char_lower_underscore, Hl.
      * exists (char_lower c), rest. split; [reflexivity|].
        apply char_lower_not_upper.
Qed.


(** ** The parameter builder: the loop *)

Lemma resource_param_eval (params : gmap string pyval) (item : string * pyval) :
  resource_param params item
  = if passes item then Ok (write params item) else Raise IndexError.
Proof.
  destruct item as [name rc]. rewrite resource_param_spec.
  unfold passes, write, written_by, sku_of. simpl.
  pose proof (camel_None name) as Hn.
  destruct (enabled_mapping rc); simpl.
  - destruct (camel name) as [p|].
    + destruct (only_underscores name); [discriminate (proj2 Hn eq_refl)|].
      simpl. destruct (top_value rc "sku"); reflexivity.
    + rewrite (proj1 Hn eq_refl). reflexivity.
  - destruct (camel name); reflexivity.
Qed.

Lemma resource_loop_eval (items : list (string * pyval))
    (params : gmap string pyval) :
  for_result items resource_param params
  = if forallb passes items then Ok (fold_left write items params)
    else Raise IndexError.
Proof.
  revert params. induction items as [|item items IH]; intros params;
    [reflexivity|].
  simpl. rewrite resource_param_eval.
  destruct (passes item); simpl; [apply IH|reflexivity].
Qed.

Lemma build_infra_params_eval (config : OrchestratorConfig) :
  build_infra_params config
  = match resources config with
    | PDict items =>
        if forallb passes items
        then Ok ((PStr <$> extra_params config)
                 ∪ fold_left write items (own_params config))
        else Raise IndexError
    | _ => Raise AttributeError
    end.
Proof.
  unfold build_infra_params.
  destruct (resources config) as [| | | | |items]; try reflexivity.
  simpl. fold (own_params config). rewrite resource_loop_eval.
  destruct (forallb passes items); reflexivity.
Qed.

Lemma written_by_key (item : string * pyval) (k : string) (v : pyval) :
  written_by item = Some (k, v) → last_char k = Some "u"%char.
Proof.
  unfold written_by.
  destruct (camel (fst item)) as [p|]; [|discriminate].
  destruct (sku_of (snd item)); [|discriminate].
  intros [= <- _]. change "Sku" with (String "S" "ku").
  rewrite last_char_append. reflexivity.
Qed.

Lemma write_fold_other (items : list (string * pyval))
    (params : gmap string pyval) (k : string) :
  (∀ item, item ∈ items → fst <$> written_by item ≠ Some k) →
  fold_left write items params !! k = params !! k.
Proof.
  revert params. induction items as [|item items IH]; intros params H; simpl;
    [reflexivity|].
  rewrite IH by (intros i Hi; apply H; by apply list_elem_of_further).
  pose proof (H item (list_elem_of_here _ _)) as Hi.
  unfold write. destruct (written_by item) as [[k' v']|]; [|reflexivity].
  apply lookup_insert_ne. simpl in Hi. congruence.
Qed.

Lemma write_fold_origin (items : list (string * pyval))
    (params : gmap string pyval) (k : string) (v : pyval) :
  fold_left write items params !! k = Some v →
  params !! k = Some v ∨ ∃ item, item ∈ items ∧ written_by item = Some (k, v).
Proof.
  revert params. induction items as [|item items IH]; intros params H;
    simpl in H; [auto|].
  apply IH in H as [H|(i & Hin & Hi)].
  - unfold write in H. destruct (written_by item) as [[k' v']|] eqn:E; [|auto].
    destruct (decide (k' = k)) as [->|Hne].
    + rewrite lookup_insert_eq in H. injection H as <-.
      right. exists item. split; [apply list_elem_of_here|exact E].
    + rewrite lookup_insert_ne in H by exact Hne. auto.
  - right. exists i. split; [by apply list_elem_of_further|exact Hi].
Qed.

Lemma write_fold_not_sku (items : list (string * pyval))
    (params : gmap string pyval) (k : string) :
  last_char k ≠ Some "u"%char →
  fold_left write items params !! k = params !! k.
Proof.
  intros Hk. apply write_fold_other. intros item _ H.
  destruct (written_by item) as [[k' v']|] eqn:E; [|discriminate].
  injection H as ->. apply written_by_key in E. contradiction.
Qed.

Lemma written_by_Some (name : string) (rc v : pyval) (k : string) :
  written_by (name, rc) = Some (k, v) ↔
  enabled_mapping rc = true ∧ top_value rc "sku" = Some v
  ∧ ∃ p, camel name = Some p ∧ k = p +:+ "Sku".
Proof.
  unfold written_by, sku_of. simpl.
  destruct (camel name) as [p|], (enabled_mapping rc); simpl.
  - destruct (top_value rc "sku") as [sku|].
    + split.
      * intros [= <- <-]. eauto.
      * intros (_ & [= <-] & p' & [= <-] & ->). reflexivity.
    + split; [discriminate|]. intros (_ & H & _). discriminate.
  - split; [discriminate|]. intros (H & _). discriminate.
  - split; [discriminate|]. intros (_ & _ & p & H & _). discriminate.
  - split; [discriminate|]. intros (H & _). discriminate.
Qed.

(** X18. On resources whose names are strings, [build_infra_params] returns
    exactly when [resources] is a mapping in which every enabled mapping has
    a name with a character other than the underscore.  Otherwise it raises
    [AttributeError] when [resources] is not a mapping, and [IndexError]
    when it is. *)
Theorem build_infra_params_outcome (config : OrchestratorConfig) :
  is_ok (build_infra_params config) = buildable config
  ∧ ∀ e, build_infra_params config = Raise e →
         match resources config with
         | PDict _ => e = IndexError
         | _ => e = AttributeError
         end.
Proof.
  rewrite build_infra_params_eval. unfold buildable.
  destruct (resources config) as [| | | | |items];
    try (split; [reflexivity|intros e [= <-]; reflexivity]).
  change (forallb _ items) with (forallb passes items).
  destruct (forallb passes items).
  - split; [reflexivity|discriminate].
  - split; [reflexivity|]. intros e [= <-]. reflexivity.
Qed.

(** X19. The configuration's own fields always reach the parameters, unless an
    extra parameter of the same name replaces them: [location] and
    [environmentName] always, [subscriptionId] exactly when the subscription
    is set and not empty.  No resource can write over them. *)
Theorem build_infra_params_own_fields (config : OrchestratorConfig)
    (params : gmap string pyval) :
  build_infra_params config = Ok params →
  (extra_params config !! "location" = None →
   params !! "location" = Some (location config))
  ∧ (extra_params config !! "environmentName" = None →
     params !! "environmentName" = Some (env_name config))
  ∧ (extra_params config !! "subscriptionId" = None →
     params !! "subscriptionId"
     = if truthy (subscription_id config) then Some (subscription_id config)
       else None).
Proof.
  rewrite build_infra_params_eval.
  destruct (resources config) as [| | | | |items]; try discriminate.
  destruct (forallb passes items); [|discriminate]. intros [= <-].
  assert (Hl : ∀ k, extra_params config !! k = None →
                    last_char k ≠ Some "u"%char →
                    ((PStr <$> extra_params config)
                     ∪ fold_left write items (own_params config)) !! k
                    = own_params config !! k).
  { intros k Hk Hu. rewrite lookup_union_r by (rewrite lookup_fmap, Hk; reflexivity).
    apply write_fold_not_sku, Hu. }
  repeat split; intros Hk; rewrite (Hl _ Hk) by discriminate;
    unfold own_params; destruct (truthy (subscription_id config));
    reflexivity.
Qed.

(** X20. Every parameter has a source: a key of the parameters returned is an
    extra parameter, or one of the configuration's own fields, or the
    camel-cased name, with [Sku] appended, of an entry of [resources] that is
    a mapping, enabled, and holds that value under [sku].  An entry that is
    not a mapping, is disabled or has no [sku] contributes nothing. *)
Theorem build_infra_params_origin (config : OrchestratorConfig)
    (params : gmap string pyval) (k : string) (v : pyval) :
  build_infra_params config = Ok params →
  params !! k = Some v →
  (∃ x, extra_params config !! k = Some x ∧ v = PStr x)
  ∨ own_params config !! k = Some v
  ∨ ∃ items name rc p,
      resources config = PDict items ∧ (name, rc) ∈ items
      ∧ enabled_mapping rc = true ∧ top_value rc "sku" = Some v
      ∧ camel name = Some p ∧ k = p +:+ "Sku".
Proof.
  rewrite build_infra_params_eval.
  destruct (resources config) as [| | | | |items]; try discriminate.
  destruct (forallb passes items); [|discriminate]. intros [= <-] H.
  apply lookup_union_Some_raw in H as [H|[_ H]].
  - left. rewrite lookup_fmap in H.
    destruct (extra_params config !! k) as [x|]; [|discriminate].
    injection H as <-. eauto.
  - right. apply write_fold_origin in H as [H|([name rc] & Hin & Hw)]; [auto|].
    right. apply written_by_Some in Hw as (He & Hs & p & Hc & ->).
    exists items, name, rc, p. repeat split; first [assumption|reflexivity].
Qed.

(** X21. An entry of [resources] that is an enabled mapping with a [sku]
    reaches the parameters under its camel-cased name with [Sku] appended,
    unless a later entry writes the same parameter or an extra parameter has
    that name. *)
Theorem build_infra_params_sku_emitted (config : OrchestratorConfig)
    (params : gmap string pyval) (before after : list (string * pyval))
    (name p : string) (rc sku : pyval) :
  build_infra_params config = Ok params →
  resources config = PDict (before ++ (name, rc) :: after) →
  sku_of rc = Some sku → camel name = Some p →
  (∀ item, item ∈ after → fst <$> written_by item ≠ Some (p +:+ "Sku")) →
  extra_params config !! (p +:+ "Sku") = None →
  params !! (p +:+ "Sku") = Some sku.
Proof.
  rewrite build_infra_params_eval. intros H Hr Hs Hc Hafter Hx.
  rewrite Hr in H. destruct (forallb passes _); [|discriminate].
  injection H as <-.
  rewrite lookup_union_r by (rewrite lookup_fmap, Hx; reflexivity).
  rewrite fold_left_app. simpl. rewrite write_fold_other by exact Hafter.
  unfold write, written_by. simpl. rewrite Hc, Hs. apply lookup_insert_eq.
Qed.


(** ** Reporting and [main] *)





Lemma resolve_config_with_tools (w : World) (a : args.Namespace)
    (tools : list string → option (Z * string * string)) (infra : bool)
    (files : list string) :
  resolve_config (with_tools tools infra files w) a = resolve_config w a.
Proof.
  unfold resolve_config, load_yaml_config, load_env_file, env_path. simpl.
  destruct (path_exists w ".env"); reflexivity.
Qed.

(** X24. Outside the dry-run and what-if modes [main] makes no use of the
    tools and of the [infra] directory: when neither mode is selected, the
    output and the result are the same whatever is installed and whatever
    the directory holds. *)
Theorem main_without_checks (w : World) (a : args.Namespace)
    (config : OrchestratorConfig)
    (tools : list string → option (Z * string * string)) (infra : bool)
    (files : list string) :
  io_res (resolve_config w a) = Ok config →
  truthy (dry_run config) = false →
  truthy (what_if config) = false →
  main (with_tools tools infra files w) a = main w a.
Proof.
  intros Hr Hd Hw. rewrite !main_dispatch, resolve_config_with_tools.
  unfold mbind at 1 3. unfold IO_bind. rewrite Hr.
  assert (Hp : path (with_tools tools infra files w) (selected config)
               = path w (selected config)).
  { rewrite selected_priority, Hd, Hw.
    destruct (apply config); [reflexivity|].
    destruct (destroy config); reflexivity. }
  f_equal.
  - unfold mbind, IO_bind.
    destruct (io_res (print_config config)); [rewrite Hp|]; reflexivity.
  - unfold mbind, IO_bind.
    destruct (io_res (print_config config)); [rewrite Hp|]; reflexivity.
Qed.

(** ** Examples *)

(** A comment between two assignments changes nothing. *)
Lemma load_env_file_skips_comment :
  load_env_file (with_file ".env" (["A=1"] ++ "# A=2" :: ["B=3"]) bare_world) ".env"
  = load_env_file (with_file ".env" (["A=1"] ++ ["B=3"]) bare_world) ".env".
Proof.
  apply load_env_file_skips_line; [reflexivity|]. right. left. reflexivity.
Defined.

(** [A] is set twice: the second line wins, and its value is stripped. *)
Lemma load_env_file_second_line_wins :
  load_env_file env_world ".env" !! "A" = Some "2".
Proof.
  apply (load_env_file_last_wins env_world ".env" ["A=1" +:+ nl]
           ["B=x=y" +:+ nl] ("A = 2 " +:+ nl) "A" "2");
    [reflexivity|reflexivity|vm_compute; reflexivity|].
  intros l Hl. apply list_elem_of_singleton in Hl. subst l.
  vm_compute. discriminate.
Defined.

(** The entry for [B] comes from the existing file, and [B] has no [=]. *)
Lemma load_env_file_origin_of_B :
  path_exists env_world ".env" = true ∧ char_in "=" "B" = false.
Proof.
  assert (H : load_env_file env_world ".env" !! "B" = Some "x=y")
    by (vm_compute; reflexivity).
  destruct (load_env_file_origin env_world ".env" "B" "x=y" H)
    as (Hp & _ & Hc & _).
  split; assumption.
Defined.

(** Of [--set a=1 --set a=2=3] the second wins, with its [=] kept. *)
Lemma resolve_config_set_twice :
  io_res (resolve_config bare_world set_args) = Ok set_config
  ∧ extra_params set_config !! "a" = Some "2=3".
Proof.
  assert (H : io_res (resolve_config bare_world set_args) = Ok set_config)
    by (vm_compute; reflexivity).
  split; [exact H|].
  apply (resolve_config_set_last_wins bare_world set_args set_config
           ["a=1"] ["novalue"] "a" "2=3" H);
    [reflexivity|reflexivity|].
  intros q Hq. apply list_elem_of_singleton in Hq. subst q.
  vm_compute. discriminate.
Defined.

(** The extra parameter [a] was given as [a=2=3] on the command line. *)
Lemma resolve_config_extra_param_source :
  ∃ params, args.set set_args = Some params ∧ "a=2=3" ∈ params
            ∧ char_in "=" "a" = false.
Proof.
  assert (H : io_res (resolve_config bare_world set_args) = Ok set_config)
    by (vm_compute; reflexivity).
  assert (Hk : extra_params set_config !! "a" = Some "2=3")
    by (vm_compute; reflexivity).
  exact (resolve_config_extra_params_origin bare_world set_args set_config
           "a" "2=3" H Hk).
Defined.

(** The version printed after a blank line. *)
Lemma get_tool_version_shape_v2 :
  available blank_line_world "foo" = true
  ∧ "v2" ≠ ""
  ∧ char_in "010" "v2" = false
  ∧ ∃ c, first_char "v2" = Some c ∧ is_space c = false.
Proof.
  apply (get_tool_version_shape blank_line_world "foo" "v2").
  vm_compute. reflexivity.
Defined.

(** A tool that is not installed is recorded as missing, not left out. *)
Lemma require_tools_entries_bare :
  ∃ results, require_tools bare_world None = Ok results
             ∧ ∀ tool, is_Some (results !! tool)
                       ↔ tool ∈ default ["az"; "azd"; "bicep"] None.
Proof.
  apply (require_tools_entries bare_world None). intros tool _. reflexivity.
Defined.

(** The output ends with a newline: the last piece is empty, and the line
    before it sets [B]. *)
Lemma azd_env_get_values_double_quoted :
  ∃ env_vars, azd_env_get_values azd_world None = Ok env_vars
              ∧ env_vars !! "B" = Some "two".
Proof.
  apply (azd_env_get_values_last_wins azd_world None azd_output ""
           ["A=1"] [""] "B" "two" (String dquote ("two" +:+ String dquote ""))).
  - reflexivity.
  - reflexivity.
  - vm_compute. reflexivity.
  - intros l Hl. apply list_elem_of_singleton in Hl as ->. discriminate.
  - reflexivity.
  - reflexivity.
  - right. left. reflexivity.
  - repeat split; discriminate.
Defined.

(** Two files, the first of which does not build: the second is validated
    all the same, and the answer is no. *)
Lemma validate_bicep_files_first_fails :
  io_res (validate_bicep_files bicep_world) = Ok false
  ∧ io_log (validate_bicep_files bicep_world)
    = [ Text (nl +:+ rule); Text "BICEP VALIDATION"; Text (rule +:+ nl);
        Fmt "✗ Bicep validation failed: {}" [PStr "infra/a.bicep"];
        Fmt "Error: {}" [PStr "syntax error"];
        Fmt "✓ Bicep file is valid: {}" [PStr "infra/b.bicep"];
        Text (nl +:+ rule +:+ nl) ].
Proof.
  destruct (validate_bicep_files_outcome bicep_world) as [Hr Hl].
  - intros f _. reflexivity.
  - split; [exact Hr|]. apply Hl; [reflexivity|discriminate].
Defined.

(** Nothing installed: the answer is no. *)
Lemma check_tools_nothing_installed :
  io_res (check_tools bare_world)
  = Ok (available bare_world "az" && available bare_world "azd"
        && available bare_world "bicep").
Proof. apply (check_tools_outcome bare_world). intros tool _. reflexivity. Defined.

Lemma sales_config_builds : is_ok (build_infra_params sales_config) = true.
Proof. vm_compute. reflexivity. Qed.

Lemma sales_config_sku (params : gmap string pyval) :
  build_infra_params sales_config = Ok params →
  params !! "salesCatalogSku" = Some (PStr "Standard_S1").
Proof.
  rewrite build_infra_params_eval. intros [= <-]. vm_compute. reflexivity.
Qed.

(** With no extra parameter and no subscription, the location is the
    configuration's and there is no [subscriptionId]. *)
Lemma build_infra_params_own_fields_sales :
  ∃ params, build_infra_params sales_config = Ok params
            ∧ params !! "location" = Some (PStr "eastus")
            ∧ params !! "subscriptionId" = None.
Proof.
  destruct (build_infra_params sales_config) as [params|e] eqn:E.
  - exists params. split; [reflexivity|].
    destruct (build_infra_params_own_fields sales_config params E)
      as (Hl & _ & Hs).
    split; [apply Hl|apply Hs]; reflexivity.
  - pose proof sales_config_builds as H. rewrite E in H. discriminate H.
Defined.

(** [salesCatalogSku] comes from the entry [sales_catalog]. *)
Lemma build_infra_params_origin_sales :
  ∃ params, build_infra_params sales_config = Ok params
    ∧ ((∃ x, extra_params sales_config !! "salesCatalogSku" = Some x
             ∧ PStr "Standard_S1" = PStr x)
       ∨ own_params sales_config !! "salesCatalogSku" = Some (PStr "Standard_S1")
       ∨ ∃ items name rc p,
           resources sales_config = PDict items ∧ (name, rc) ∈ items
           ∧ enabled_mapping rc = true
           ∧ top_value rc "sku" = Some (PStr "Standard_S1")
           ∧ camel name = Some p ∧ "salesCatalogSku" = p +:+ "Sku").
Proof.
  destruct (build_infra_params sales_config) as [params|e] eqn:E.
  - exists params. split; [reflexivity|].
    exact (build_infra_params_origin sales_config params "salesCatalogSku"
             (PStr "Standard_S1") E (sales_config_sku params E)).
  - pose proof sales_config_builds as H. rewrite E in H. discriminate H.
Defined.

(** The entry [sales_catalog] with [sku: Standard_S1] gives
    [salesCatalogSku]. *)
Lemma build_infra_params_sales_catalog :
  ∃ params, build_infra_params sales_config = Ok params
            ∧ params !! "salesCatalogSku" = Some (PStr "Standard_S1").
Proof.
  destruct (build_infra_params sales_config) as [params|e] eqn:E.
  - exists params. split; [reflexivity|].
    apply (build_infra_params_sku_emitted sales_config params []
             [] "sales_catalog" "salesCatalog"
             (PDict [("enabled", PBool true); ("sku", PStr "Standard_S1")])
             (PStr "Standard_S1") E);
      [reflexivity|reflexivity|reflexivity| |reflexivity].
    intros item Hi. apply elem_of_nil in Hi. contradiction.
  - pose proof sales_config_builds as H. rewrite E in H. discriminate H.
Defined.

(** [--apply]: the run is the same with every tool installed and an [infra]
    directory as with nothing at all. *)
Lemma main_apply_ignores_tools :
  main (with_tools all_installed true ["infra/main.bicep"] bare_world)
    westus2_args
  = main bare_world westus2_args.
Proof.
  apply (main_without_checks bare_world westus2_args westus2_config);
    [vm_compute; reflexivity|reflexivity|reflexivity].
Defined.

